(** * finance-portfolio-agent: credential vault, connection lifecycle,
      notification hook, edge-function transport and delta monitor.

    A shallow embedding of
    - [supabase/migrations/20240403_token_encryption.sql]
      ([encrypt_token], [decrypt_token], [create_user_connection],
      [update_user_connection_token]),
    - the schema migration that declares [user_connections],
      [notifications] and [get_active_connections],
    - [src/hooks/useNotifications.ts],
    - the [mcp-agent] edge function,
    - the [portfolio_monitor] background task (configuration only),
    followed by the properties proved about them. *)

From Stdlib Require Import ZArith NArith List String Ascii Bool Lia QArith Qabs.
From Stdlib Require Import Strings.Byte DecimalString Sorted.
Import ListNotations.
Set Warnings "-register-all".
Local Open Scope string_scope.
Local Open Scope Z_scope.

(** ** JSON values

    Shared by the [jsonb] column [metadata] and by the request and
    response bodies of the edge function.  Object fields keep their
    textual order; numbers are integer literals. *)
Inductive json : Type :=
| JNull
| JBool (b : bool)
| JNumber (n : Z)
| JString (s : string)
| JArray (items : list json)
| JObject (fields : list (string * json)).

(** Own-property lookup on the field list of a JSON object. *)
Fixpoint assoc {A : Type} (k : string) (l : list (string * A)) : option A :=
  match l with
  | [] => None
  | (k', v) :: rest => if String.eqb k k' then Some v else assoc k rest
  end.

(** Replace the value stored under [k], or add the key when missing. *)
Fixpoint assoc_set {A : Type} (k : string) (v : A) (l : list (string * A))
  : list (string * A) :=
  match l with
  | [] => [(k, v)]
  | (k', v') :: rest =>
      if String.eqb k k' then (k', v) :: rest else (k', v') :: assoc_set k v rest
  end.

(** ** Errors of the database layer *)
Inductive pg_error : Type :=
| raise_exception (message : string)        (* RAISE EXCEPTION '...' *)
| unique_violation (constraint : string)    (* SQLSTATE 23505 *)
| foreign_key_violation (constraint : string) (* SQLSTATE 23503 *)
| undefined_object (parameter : string)     (* current_setting on an unset name *)
| invalid_text_representation (what : string) (* SQLSTATE 22P02 *)
| invalid_parameter_value (what : string)   (* SQLSTATE 22023 *)
| external_routine_exception (what : string). (* raised inside pgcrypto *)

Inductive result (A : Type) : Type :=
| Ok (a : A)
| Err (e : pg_error).
Arguments Ok {A} a.
Arguments Err {A} e.

Definition bind {A B : Type} (r : result A) (k : A -> result B) : result B :=
  match r with
  | Ok a => k a
  | Err e => Err e
  end.

Notation "x <- c1 ;; c2" := (bind c1 (fun x => c2))
  (at level 61, c1 at next level, right associativity).

(** The error taxonomy of the specification, as the database raises it. *)
Definition AccessDenied : pg_error := raise_exception "Access denied".
Definition UserNotFound : pg_error := raise_exception "User not found".
Definition ConnectionNotFound : pg_error := raise_exception "Connection not found".
Definition is_conflict {A : Type} (r : result A) : Prop :=
  exists c, r = Err (unique_violation c).

(** ** bytea <-> text casts

    [pgp_sym_encrypt(...)::TEXT] prints a [bytea] in the default hex
    output format; [p_encrypted_token::bytea] reads either the hex format
    or the traditional escape format. *)
Module Bytea.

Definition bytea := list byte.

Definition hex_digit (n : N) : ascii :=
  if (n <? 10)%N then ascii_of_N (48 + n) else ascii_of_N (87 + n).

Definition byte_hex (b : byte) : string :=
  let n := Byte.to_N b in
  String (hex_digit (n / 16)) (String (hex_digit (n mod 16)) EmptyString).

Fixpoint hex_encode (bs : bytea) : string :=
  match bs with
  | [] => EmptyString
  | b :: rest => byte_hex b ++ hex_encode rest
  end.

(** [byteaout] with [bytea_output = hex]. *)
Definition byteaout (bs : bytea) : string := "\x" ++ hex_encode bs.

Definition hex_value (c : ascii) : option N :=
  let n := N_of_ascii c in
  if ((48 <=? n) && (n <=? 57))%N then Some (n - 48)%N
  else if ((97 <=? n) && (n <=? 102))%N then Some (n - 87)%N
  else if ((65 <=? n) && (n <=? 70))%N then Some (n - 55)%N
  else None.

Definition is_space (c : ascii) : bool :=
  let n := N_of_ascii c in
  ((n =? 32) || (n =? 10) || (n =? 9) || (n =? 13))%N.

(** Hex input: pairs of hex digits, white space allowed between pairs. *)
Fixpoint hex_decode (s : string) : option bytea :=
  match s with
  | EmptyString => Some []
  | String h rest =>
      if is_space h then hex_decode rest
      else
        match rest with
        | String l rest' =>
            match hex_value h, hex_value l with
            | Some a, Some b =>
                match Byte.of_N (16 * a + b), hex_decode rest' with
                | Some x, Some bs => Some (x :: bs)
                | _, _ => None
                end
            | _, _ => None
            end
        | EmptyString => None
        end
  end.

Definition octal_value (c : ascii) : option N :=
  let n := N_of_ascii c in
  if ((48 <=? n) && (n <=? 55))%N then Some (n - 48)%N else None.

Definition backslash : ascii := ascii_of_N 92.

(** Escape input: a backslash starts either a doubled backslash or three
    octal digits (the first at most 3); every other character stands for
    itself. *)
Fixpoint escape_decode (s : string) : option bytea :=
  match s with
  | EmptyString => Some []
  | String c rest =>
      if negb (Ascii.eqb c backslash) then
        match escape_decode rest with
        | Some bs => Some (byte_of_ascii c :: bs)
        | None => None
        end
      else
        match rest with
        | String d1 (String d2 (String d3 rest3 as rest2) as rest1) =>
            match octal_value d1, octal_value d2, octal_value d3 with
            | Some a, Some b, Some c3 =>
                if (a <=? 3)%N then
                  match Byte.of_N (64 * a + 8 * b + c3), escape_decode rest3 with
                  | Some x, Some bs => Some (x :: bs)
                  | _, _ => None
                  end
                else None
            | _, _, _ =>
                if Ascii.eqb d1 backslash then
                  match escape_decode rest1 with
                  | Some bs => Some (byte_of_ascii backslash :: bs)
                  | None => None
                  end
                else None
            end
        | String d1 rest1 =>
            if Ascii.eqb d1 backslash then
              match escape_decode rest1 with
              | Some bs => Some (byte_of_ascii backslash :: bs)
              | None => None
              end
            else None
        | EmptyString => None
        end
  end.

(** [byteain]: the text -> bytea cast. *)
Definition byteain (s : string) : result bytea :=
  let parsed :=
    match s with
    | String c1 (String c2 rest) =>
        if Ascii.eqb c1 backslash && Ascii.eqb c2 "x"%char
        then hex_decode rest else escape_decode s
    | _ => escape_decode s
    end in
  match parsed with
  | Some bs => Ok bs
  | None => Err (invalid_text_representation "bytea")
  end.

End Bytea.

(** ** Credential vault and connection lifecycle
    ([20240403_token_encryption.sql] and the [user_connections] schema) *)
Module Connections.
Import Bytea.

Definition UUID := N.
Definition TEXT := string.
(** [TIMESTAMPTZ]: microseconds since the epoch. *)
Definition timestamptz := Z.

(** A row of [user_connections].  [is_active], [created_at],
    [last_check_at] and [metadata] are nullable columns. *)
Record user_connection : Type := mk_user_connection {
  id : UUID;
  user_id : UUID;
  broker_type : TEXT;
  encrypted_token : TEXT;
  is_active : option bool;
  created_at : option timestamptz;
  last_check_at : option timestamptz;
  metadata : option json
}.

(** The part of the database the functions read and write:
    [auth.users], [user_connections] and the run-time settings. *)
Record database : Type := mk_database {
  auth_users : list UUID;
  user_connections : list user_connection;
  settings : list (string * TEXT)
}.

Definition current_setting (db : database) (name : string) : result TEXT :=
  match assoc name (settings db) with
  | Some v => Ok v
  | None => Err (undefined_object name)
  end.

Definition user_exists (db : database) (u : UUID) : bool :=
  existsb (N.eqb u) (auth_users db).

(** [EXISTS (SELECT 1 FROM user_connections
             WHERE user_id = p_user_id AND encrypted_token = p_encrypted_token)] *)
Definition owns_token (db : database) (p_user_id : UUID) (p_encrypted_token : TEXT)
  : bool :=
  existsb (fun r => N.eqb (user_id r) p_user_id
                    && String.eqb (encrypted_token r) p_encrypted_token)
          (user_connections db).

(** [jsonb_set(target, '{key}', new_value)] for a one-element path:
    strict in its arguments, defined on objects, an error on arrays (the
    path element is not an integer) and on scalars. *)
Definition jsonb_set_key (target : option json) (key : string) (new_value : json)
  : result (option json) :=
  match target with
  | None => Ok None
  | Some (JObject fields) => Ok (Some (JObject (assoc_set key new_value fields)))
  | Some (JArray _) => Err (invalid_text_representation "path element at position 1 is not an integer")
  | Some _ => Err (invalid_parameter_value "cannot set path in scalar")
  end.

(** [UPDATE ... SET ... WHERE p]: every row satisfying [p] is replaced by
    [f row]; an error raised while computing a new row aborts the
    statement. *)
Fixpoint update_where (p : user_connection -> bool)
  (f : user_connection -> result user_connection)
  (rows : list user_connection) : result (list user_connection) :=
  match rows with
  | [] => Ok []
  | r :: rest =>
      r' <- (if p r then f r else Ok r) ;;
      rest' <- update_where p f rest ;;
      Ok (r' :: rest')
  end.

(** [INSERT INTO user_connections]: primary key, [UNIQUE(user_id,
    broker_type)] and the foreign key to [auth.users]. *)
Definition insert_user_connection (db : database) (row : user_connection)
  : result database :=
  if existsb (fun r => N.eqb (id r) (id row)) (user_connections db) then
    Err (unique_violation "user_connections_pkey")
  else if existsb (fun r => N.eqb (user_id r) (user_id row)
                            && String.eqb (broker_type r) (broker_type row))
                  (user_connections db) then
    Err (unique_violation "user_connections_user_id_broker_type_key")
  else if negb (user_exists db (user_id row)) then
    Err (foreign_key_violation "user_connections_user_id_fkey")
  else
    Ok (mk_database (auth_users db) (user_connections db ++ [row]) (settings db)).

(** [INTERVAL '5 minutes'] in microseconds. *)
Definition five_minutes : Z := 300000000.

(** [get_active_connections()]: a [LANGUAGE sql] function whose body is a
    single [SELECT]; it reads [user_connections] at time [now] and writes
    nothing. *)
Definition get_active_connections (db : database) (now : timestamptz)
  : list user_connection :=
  filter (fun r =>
            match is_active r with
            | Some true =>
                match last_check_at r with
                | None => true
                | Some t => t <? now - five_minutes
                end
            | _ => false
            end)
         (user_connections db).

Section Vault.

(** pgcrypto.  [pgp_sym_encrypt] draws a random session key, salt and
    IV on every call: [entropy] stands for these random choices.
    [pgp_sym_decrypt] fails on a wrong key or corrupt data. *)
Variable pgp_sym_encrypt : TEXT -> TEXT -> N -> bytea.
Variable pgp_sym_decrypt : bytea -> TEXT -> option TEXT.
(** Text form of a timestamp, as [to_jsonb] stores it. *)
Variable timestamptz_out : timestamptz -> string.
(** [current_user] inside the [SECURITY DEFINER] functions. *)
Variable current_user : string.

(** The call [pgp_sym_encrypt(data, psw)]: pgcrypto refuses an empty
    password ("Illegal argument to function", SQLSTATE 39000) before it
    encrypts anything. *)
Definition sym_encrypt (data psw : TEXT) (entropy : N) : result bytea :=
  if String.eqb psw EmptyString then
    Err (external_routine_exception "Illegal argument to function")
  else Ok (pgp_sym_encrypt data psw entropy).

Definition encrypt_token (db : database) (entropy : N)
  (p_token : TEXT) (p_user_id : UUID) : result TEXT :=
  v_key <- current_setting db "app.encryption_key" ;;
  bs <- sym_encrypt p_token v_key entropy ;;
  Ok (byteaout bs).

Definition decrypt_token (db : database)
  (p_encrypted_token : TEXT) (p_user_id : UUID) : result TEXT :=
  if negb (owns_token db p_user_id p_encrypted_token) then
    Err AccessDenied
  else
    v_key <- current_setting db "app.encryption_key" ;;
    bs <- byteain p_encrypted_token ;;
    match pgp_sym_decrypt bs v_key with
    | Some v_token => Ok v_token
    | None => Err (external_routine_exception "Wrong key or corrupt data")
    end.

Definition to_jsonb (t : timestamptz) : json := JString (timestamptz_out t).

(** [uuid] is the value [uuid_generate_v4()] yields for the new row and
    [now] the transaction time. *)
Definition create_user_connection (db : database) (now : timestamptz)
  (uuid : UUID) (entropy : N)
  (p_user_id : UUID) (p_broker_type : TEXT) (p_token : TEXT)
  : result (UUID * database) :=
  if negb (user_exists db p_user_id) then
    Err UserNotFound
  else
    tok <- encrypt_token db entropy p_token p_user_id ;;
    db' <- insert_user_connection db
             {| id := uuid;
                user_id := p_user_id;
                broker_type := p_broker_type;
                encrypted_token := tok;
                is_active := Some true;
                created_at := Some now;
                last_check_at := None;
                metadata := Some (JObject [("created_by", JString current_user);
                                           ("created_at", to_jsonb now)]) |} ;;
    Ok (uuid, db').

Definition update_user_connection_token (db : database) (now : timestamptz)
  (entropy : N) (p_connection_id : UUID) (p_new_token : TEXT)
  : result database :=
  match find (fun r => N.eqb (id r) p_connection_id) (user_connections db) with
  | None => Err ConnectionNotFound
  | Some found =>
      let v_user_id := user_id found in
      rows <- update_where
                (fun r => N.eqb (id r) p_connection_id)
                (fun r =>
                   tok <- encrypt_token db entropy p_new_token v_user_id ;;
                   md <- jsonb_set_key (metadata r) "updated_at" (to_jsonb now) ;;
                   Ok {| id := id r;
                         user_id := user_id r;
                         broker_type := broker_type r;
                         encrypted_token := tok;
                         is_active := is_active r;
                         created_at := created_at r;
                         last_check_at := last_check_at r;
                         metadata := md |})
                (user_connections db) ;;
      Ok (mk_database (auth_users db) rows (settings db))
  end.

End Vault.

(** A stand-in cipher used to exercise the theorems on concrete data:
    the ciphertext carries one byte of entropy, the key length and the
    clear text. *)
Definition demo_encrypt (data psw : TEXT) (entropy : N) : bytea :=
  match Byte.of_N (entropy mod 256), Byte.of_N (N.of_nat (String.length psw) mod 256) with
  | Some e, Some l => e :: l :: list_byte_of_string data
  | _, _ => []
  end.

Definition demo_decrypt (bs : bytea) (psw : TEXT) : option TEXT :=
  match bs with
  | _ :: l :: rest =>
      if N.eqb (Byte.to_N l) (N.of_nat (String.length psw) mod 256)
      then Some (string_of_list_byte rest) else None
  | _ => None
  end.

Definition encryption_key : string := "app.encryption_key".

(** A record of [u] stores the ciphertext [c]. *)
Definition stored_for (db : database) (u : UUID) (c : TEXT) : Prop :=
  exists row, In row (user_connections db)
              /\ user_id row = u /\ encrypted_token row = c.

(** A connection for the pair ([u], [b]) exists. *)
Definition pair_exists (db : database) (u : UUID) (b : TEXT) : Prop :=
  exists row, In row (user_connections db)
              /\ user_id row = u /\ broker_type row = b.

(** Referential integrity of [user_connections.user_id]. *)
Definition references_users (db : database) : Prop :=
  forall row, In row (user_connections db) -> In (user_id row) (auth_users db).

(** The encryption key is configured. *)
Definition key_configured (db : database) : Prop :=
  exists k, current_setting db encryption_key = Ok k.

(** The encryption key is configured and pgcrypto accepts it. *)
Definition key_usable (db : database) : Prop :=
  exists k, current_setting db encryption_key = Ok k /\ k <> EmptyString.


(** A row is due at [now]. *)
Definition due (now : timestamptz) (r : user_connection) : Prop :=
  is_active r = Some true
  /\ (last_check_at r = None
      \/ exists t, last_check_at r = Some t /\ t < now - five_minutes).

(** A database with one known user and one stored connection, and the
    same database before that connection was created. *)
Definition demo_empty : database :=
  {| auth_users := [7%N]; user_connections := [];
     settings := [(encryption_key, "k3y")] |}.

Definition demo_row : user_connection :=
  {| id := 1%N; user_id := 7%N; broker_type := "tinkoff";
     encrypted_token := byteaout (demo_encrypt "t-secret" "k3y" 5);
     is_active := Some true; created_at := Some 1000;
     last_check_at := None;
     metadata := Some (JObject [("created_by", JString "postgres");
                                ("created_at", JString "1000")]) |}.

Definition demo_db : database :=
  {| auth_users := [7%N]; user_connections := [demo_row];
     settings := [(encryption_key, "k3y")] |}.

(** The same ciphertext stored by two owners: user 8 keeps, in a row of
    their own, a copy of the ciphertext of user 7's connection. *)
Definition copied_row : user_connection :=
  {| id := 2%N; user_id := 8%N; broker_type := "tinkoff";
     encrypted_token := encrypted_token demo_row;
     is_active := Some true; created_at := Some 1500;
     last_check_at := None; metadata := Some (JObject []) |}.

Definition copied_db : database :=
  {| auth_users := [7%N; 8%N]; user_connections := [demo_row; copied_row];
     settings := [(encryption_key, "k3y")] |}.

(** The stored connection with another metadata value, under another
    key. *)
Definition demo_row_with (md : option json) : user_connection :=
  {| id := 1%N; user_id := 7%N; broker_type := "tinkoff";
     encrypted_token := byteaout (demo_encrypt "t-secret" "k3y" 5);
     is_active := Some true; created_at := Some 1000;
     last_check_at := None; metadata := md |}.

Definition demo_db_with (key : TEXT) (md : option json) : database :=
  {| auth_users := [7%N]; user_connections := [demo_row_with md];
     settings := [(encryption_key, key)] |}.

Definition demo_timestamptz_out (t : timestamptz) : string :=
  NilZero.string_of_int (Z.to_int t).

End Connections.

(** ** Notification store and the consumer hook
    ([notifications] table; [src/hooks/useNotifications.ts]) *)
Module Notifications.

Definition UUID := N.

(** A row of [notifications]; the hook keeps the same objects
    ([select('*')] and the [payload.new] of an insert event). *)
Record Notification : Type := mk_notification {
  id : UUID;
  user_id : UUID;
  type : string;
  status : string;
  data : json;
  created_at : option Z
}.

Definition is_unread (n : Notification) : bool := String.eqb (status n) "unread".

Definition with_status (n : Notification) (s : string) : Notification :=
  {| id := id n; user_id := user_id n; type := type n; status := s;
     data := data n; created_at := created_at n |}.

(** [ORDER BY created_at DESC]: nulls sort first, ties keep their order. *)
Definition sorts_before (a b : option Z) : bool :=
  match a, b with
  | None, _ => true
  | Some _, None => false
  | Some x, Some y => y <=? x
  end.

Fixpoint insert_desc (n : Notification) (l : list Notification) : list Notification :=
  match l with
  | [] => [n]
  | m :: rest =>
      if sorts_before (created_at n) (created_at m) then n :: l
      else m :: insert_desc n rest
  end.

Definition order_by_created_at_desc (l : list Notification) : list Notification :=
  fold_right insert_desc [] l.

(** [from('notifications').select('*').eq('user_id', user.id)
      .order('created_at', { ascending: false }).limit(50)] *)
Definition select_notifications (table : list Notification) (user : UUID)
  : list Notification :=
  firstn 50 (order_by_created_at_desc
               (filter (fun n => N.eqb (user_id n) user) table)).

(** Row-level security: a row is updatable by its owner only. *)
Definition may_update (user : option UUID) (n : Notification) : bool :=
  match user with
  | Some u => N.eqb (user_id n) u
  | None => false
  end.

(** [update({ status: 'read' }).eq('id', notificationId)] *)
Definition update_read_by_id (table : list Notification) (user : option UUID)
  (notificationId : UUID) : list Notification :=
  map (fun n => if may_update user n && N.eqb (id n) notificationId
                then with_status n "read" else n) table.

(** [update({ status: 'read' }).eq('user_id', user?.id).eq('status', 'unread')] *)
Definition update_all_read (table : list Notification) (user : option UUID)
  : list Notification :=
  map (fun n => if may_update user n && is_unread n
                then with_status n "read" else n) table.

(** [count(status = unread, owner)] over the stored rows. *)
Definition count_unread (table : list Notification) (owner : UUID) : Z :=
  Z.of_nat (List.length (filter (fun n => N.eqb (user_id n) owner && is_unread n) table)).

(** What a failed call throws: an [Error] carrying a message, or some
    other value. *)
Inductive thrown : Type :=
| ErrorObject (message : string)
| OtherValue.

Definition message_or (t : thrown) (fallback : string) : string :=
  match t with
  | ErrorObject m => m
  | OtherValue => fallback
  end.

(** The React state of [useNotifications]. *)
Record hook_state : Type := mk_hook_state {
  notifications : list Notification;
  unreadCount : Z;
  loading : bool;
  error : option string
}.

Definition initial_state : hook_state :=
  {| notifications := []; unreadCount := 0; loading := true; error := None |}.

(** The store together with one subscribed consumer. *)
Record world : Type := mk_world {
  table : list Notification;
  hook : hook_state
}.

(** [loadNotifications]; [fetchError] is the error the query returned,
    if any. *)
Definition loadNotifications (table : list Notification) (user : UUID)
  (fetchError : option thrown) (st : hook_state) : hook_state :=
  match fetchError with
  | Some err =>
      {| notifications := notifications st;
         unreadCount := unreadCount st;
         loading := false;
         error := Some (message_or err "Failed to load notifications") |}
  | None =>
      let data := select_notifications table user in
      {| notifications := data;
         unreadCount := Z.of_nat (List.length (filter is_unread data));
         loading := false;
         error := None |}
  end.

(** The effect run when [user] changes. *)
Definition on_user_change (table : list Notification) (user : option UUID)
  (fetchError : option thrown) (st : hook_state) : hook_state :=
  match user with
  | None =>
      {| notifications := []; unreadCount := 0; loading := false; error := error st |}
  | Some u => loadNotifications table u fetchError st
  end.


Definition markAsRead (user : option UUID) (notificationId : UUID)
  (updateError : option thrown) (w : world) : world :=
  match updateError with
  | Some err =>
      {| table := table w;
         hook := {| notifications := notifications (hook w);
                    unreadCount := unreadCount (hook w);
                    loading := loading (hook w);
                    error := Some (message_or err "Failed to mark notification as read") |} |}
  | None =>
      {| table := update_read_by_id (table w) user notificationId;
         hook := {| notifications :=
                      map (fun n => if N.eqb (id n) notificationId
                                    then with_status n "read" else n)
                          (notifications (hook w));
                    unreadCount := unreadCount (hook w) - 1;
                    loading := loading (hook w);
                    error := error (hook w) |} |}
  end.

Definition markAllAsRead (user : option UUID) (updateError : option thrown)
  (w : world) : world :=
  match updateError with
  | Some err =>
      {| table := table w;
         hook := {| notifications := notifications (hook w);
                    unreadCount := unreadCount (hook w);
                    loading := loading (hook w);
                    error := Some (message_or err "Failed to mark all notifications as read") |} |}
  | None =>
      {| table := update_all_read (table w) user;
         hook := {| notifications :=
                      map (fun n => with_status n "read") (notifications (hook w));
                    unreadCount := 0;
                    loading := loading (hook w);
                    error := error (hook w) |} |}
  end.





(** [k] unread notifications of [owner], ids and creation times
    [first .. first + k - 1]. *)
Definition unread_batch (owner : UUID) (first : nat) (k : nat) : list Notification :=
  map (fun i => {| id := N.of_nat i; user_id := owner; type := "portfolio_change";
                   status := "unread"; data := JObject [];
                   created_at := Some (Z.of_nat i) |})
      (seq first k).


(** One unread notification, loaded by its owner. *)
Definition one_unread_loaded : world :=
  {| table := unread_batch 1%N 0 1;
     hook := on_user_change (unread_batch 1%N 0 1) (Some 1%N) None initial_state |}.

(** [a] may stand before [b] in the order of [ORDER BY created_at DESC]. *)
Definition newer_first (a b : Notification) : Prop :=
  sorts_before (created_at a) (created_at b) = true.

End Notifications.

(** ** Client-facing transport: the [mcp-agent] edge function *)
Module McpAgent.

(** Outcome of evaluating JavaScript that may throw an [Error]. *)
Inductive completion (A : Type) : Type :=
| Normal (a : A)
| Throw (message : string).
Arguments Normal {A} a.
Arguments Throw {A} message.

Definition and_then {A B : Type} (c : completion A) (k : A -> completion B)
  : completion B :=
  match c with
  | Normal a => k a
  | Throw m => Throw m
  end.

(** Values of [Number(...)]. *)
Inductive js_number : Type :=
| NaN
| PosInfinity
| NegInfinity
| Finite (q : Q).

(** [a > b] for a number [a] and an integer [b]. *)
Definition greater_than (a : js_number) (b : Z) : bool :=
  match a with
  | NaN => false
  | PosInfinity => true
  | NegInfinity => false
  | Finite q => negb (Qle_bool q (inject_Z b))
  end.

(** [config.maxRequestSize] *)
Definition maxRequestSize : Z := 1024 * 1024.

(** What the handler reads of a request: the method, the
    [content-length] header and the outcome of [req.json()] (a parsed
    document, or the [SyntaxError] it rejects with). *)
Record request : Type := mk_request {
  method : string;
  content_length : option string;
  json_body : completion json
}.

Inductive body : Type :=
| NoBody
| Text (s : string)
| JsonText (j : json).   (* the text [JSON.stringify] prints for [j] *)

Record response : Type := mk_response {
  status : Z;
  headers : list (string * string);
  payload : body
}.

Definition mockPortfolio : json :=
  JObject
    [("totalValue", JNumber 1000000);
     ("positions",
      JArray
        [JObject [("ticker", JString "SBER"); ("name", JString "Сбербанк");
                  ("quantity", JNumber 100); ("averagePrice", JNumber 250);
                  ("currentPrice", JNumber 300); ("pnl", JNumber 5000);
                  ("pnlPercent", JNumber 20)];
         JObject [("ticker", JString "GAZP"); ("name", JString "Газпром");
                  ("quantity", JNumber 200); ("averagePrice", JNumber 150);
                  ("currentPrice", JNumber 180); ("pnl", JNumber 6000);
                  ("pnlPercent", JNumber 20)]])].

(** The own properties of [mockResponses]. *)
Definition mockResponses : list (string * json) :=
  [("portfolio",
    JObject [("success", JBool true); ("data", mockPortfolio)]);
   ("analysis",
    JObject
      [("success", JBool true);
       ("data",
        JObject
          [("riskLevel", JString "medium");
           ("diversification", JString "good");
           ("recommendations",
            JArray
              [JString "Рекомендуется увеличить долю облигаций до 30%";
               JString "Стоит рассмотреть покупку акций технологического сектора"])])]);
   ("chat",
    JObject
      [("success", JBool true);
       ("data",
        JObject
          [("message",
            JString "Ваш портфель хорошо диверсифицирован, но есть возможности для оптимизации. Рекомендую рассмотреть увеличение доли облигаций для снижения рисков.")])])].

(** [mockResponses] is an object literal: its prototype is
    [Object.prototype], whose properties it inherits. *)
Definition object_prototype_functions : list string :=
  ["constructor"; "__defineGetter__"; "__defineSetter__"; "hasOwnProperty";
   "__lookupGetter__"; "__lookupSetter__"; "isPrototypeOf";
   "propertyIsEnumerable"; "toString"; "valueOf"; "toLocaleString"].

Definition member (k : string) (l : list string) : bool :=
  existsb (String.eqb k) l.

(** What a property read on [mockResponses] yields. *)
Inductive js_value : Type :=
| Undefined
| Json (j : json)
| BuiltinFunction (name : string)
| ObjectPrototype.

(** [key in mockResponses]: own and inherited properties. *)
Definition has_property (key : string) : bool :=
  match assoc key mockResponses with
  | Some _ => true
  | None => member key object_prototype_functions || String.eqb key "__proto__"
  end.

(** [mockResponses[key]] *)
Definition get_property (key : string) : js_value :=
  match assoc key mockResponses with
  | Some j => Json j
  | None =>
      if member key object_prototype_functions then BuiltinFunction key
      else if String.eqb key "__proto__" then ObjectPrototype
      else Undefined
  end.

(** [JSON.stringify(value)] as a response body: functions and
    [undefined] print nothing, [Object.prototype] prints as an empty
    object. *)
Definition stringify (v : js_value) : body :=
  match v with
  | Json j => JsonText j
  | ObjectPrototype => JsonText (JObject [])
  | Undefined | BuiltinFunction _ => NoBody
  end.

(** [ToString] on a parsed JSON value, as the [in] operator and the
    property read coerce their key.  Arrays join their elements with
    commas ([null] elements print as the empty string); an object prints
    as [[object Object]] unless an own [toString] property, which is never
    callable in parsed JSON, hides the inherited method.  Integers print
    in decimal. *)
Fixpoint ToString (j : json) : completion string :=
  match j with
  | JNull => Normal "null"
  | JBool true => Normal "true"
  | JBool false => Normal "false"
  | JNumber n => Normal (NilZero.string_of_int (Z.to_int n))
  | JString s => Normal s
  | JArray items =>
      (fix join (l : list json) : completion string :=
         match l with
         | [] => Normal EmptyString
         | x :: rest =>
             and_then (match x with JNull => Normal EmptyString | _ => ToString x end)
               (fun a =>
                  match rest with
                  | [] => Normal a
                  | _ :: _ => and_then (join rest) (fun b => Normal (a ++ "," ++ b))
                  end)
         end) items
  | JObject fields =>
      match assoc "toString" fields with
      | Some _ => Throw "Cannot convert object to primitive value"
      | None => Normal "[object Object]"
      end
  end.

(** [const { type } = await req.json()] *)
Definition destructure_type (parsed : json) : completion (option json) :=
  match parsed with
  | JNull => Throw "Cannot destructure property 'type' of '(intermediate value)' as it is null."
  | JObject fields => Normal (assoc "type" fields)
  | _ => Normal None
  end.

(** [!type] *)
Definition falsy (type : option json) : bool :=
  match type with
  | None => true
  | Some JNull => true
  | Some (JBool b) => negb b
  | Some (JNumber n) => n =? 0
  | Some (JString s) => String.eqb s EmptyString
  | Some _ => false
  end.

Section Handler.

(** [corsHeaders] of [_shared/cors.ts] and the built-in [Number]. *)
Variable corsHeaders : list (string * string).
Variable Number : string -> js_number.

Definition json_headers : list (string * string) :=
  assoc_set "Content-Type" "application/json" corsHeaders.

(** [Number(req.headers.get('content-length') || 0)] *)
Definition contentLength (req : request) : js_number :=
  match content_length req with
  | None => Finite 0
  | Some s => if String.eqb s EmptyString then Finite 0 else Number s
  end.

(** The [try] block. *)
Definition respond (req : request) : completion response :=
  if greater_than (contentLength req) maxRequestSize then
    Throw "Request body too large"
  else
    and_then (json_body req) (fun parsed =>
    and_then (destructure_type parsed) (fun type =>
      match type with
      | None => Throw "Invalid request type"
      | Some t =>
          if falsy type then Throw "Invalid request type"
          else
            and_then (ToString t) (fun key =>
              if negb (has_property key) then Throw "Invalid request type"
              else
                Normal {| status := 200;
                          headers := json_headers;
                          payload := stringify (get_property key) |})
      end)).

Definition handler (req : request) : response :=
  if String.eqb (method req) "OPTIONS" then
    {| status := 200; headers := corsHeaders; payload := Text "ok" |}
  else
    match respond req with
    | Normal r => r
    | Throw message =>
        {| status := 400;
           headers := json_headers;
           payload := JsonText (JObject [("success", JBool false);
                                         ("error", JString message)]) |}
    end.

End Handler.

(** The envelope of a rejected request. *)
Definition invalid_request_type : body :=
  JsonText (JObject [("success", JBool false);
                     ("error", JString "Invalid request type")]).

(** [Number] on strings of decimal digits, enough for the examples. *)
Definition decimal_Number (s : string) : js_number :=
  match NilZero.int_of_string s with
  | Some d => Finite (inject_Z (Z.of_int d))
  | None => NaN
  end.

(** A tag the handler is promised to reject: missing; or falsy ([null],
    [false], [0], the empty string); or any value whose property key, its
    string form, is none of the three request types and names no
    property inherited from [Object.prototype]. *)
Definition rejected_tag (type : option json) : Prop :=
  match type with
  | None => True
  | Some t =>
      falsy (Some t) = true
      \/ exists key,
           ToString t = Normal key
           /\ (key <> "portfolio" /\ key <> "analysis" /\ key <> "chat")
           /\ member key object_prototype_functions = false
           /\ key <> "__proto__"
  end.

(** The [type] property of a parsed body. *)
Definition tag_of (parsed : json) : option json :=
  match parsed with
  | JObject fields => assoc "type" fields
  | _ => None
  end.

Definition post (length_header : option string) (parsed : json) : request :=
  {| method := "POST"; content_length := length_header;
     json_body := Normal parsed |}.

End McpAgent.

(** ** Portfolio delta monitor
    (background task [portfolio_monitor]; only its configuration is
    part of the sources) *)
Module PortfolioMonitor.

(** [background_tasks / portfolio_monitor / config / change_threshold],
    in percent. *)
Definition change_threshold : Q := 5.

(** Modelled from the spec: a position of a snapshot (data model of the
    specification; the handler that reads it is missing from the sources). *)
Record Position : Type := mk_position {
  ticker : string;
  quantity : Q;
  price : Q
}.

(** Modelled from the spec: the snapshot the missing handler compares. *)
Record PortfolioSnapshot : Type := mk_snapshot {
  owner : string;
  account_ref : string;
  timestamp : Z;
  total_value : Q;
  positions : list Position
}.

(** Modelled from the spec: what the missing handler hands to the
    notification store ([append(owner, type, payload)]). *)
Record Appended : Type := mk_appended {
  appended_owner : string;
  appended_type : string;
  appended_value : Q
}.

(** Modelled from the spec: the hysteresis state of the missing handler,
    the last-alerted value per (owner, account). *)
Definition hysteresis := list ((string * string) * Q).

(** Modelled from the spec: the key of the hysteresis state, compared
    component by component. *)
Definition same_account (a b : string * string) : bool :=
  String.eqb (fst a) (fst b) && String.eqb (snd a) (snd b).

(** Modelled from the spec: the last-alerted value of an account, if
    it has alerted before. *)
Fixpoint last_alerted (st : hysteresis) (key : string * string) : option Q :=
  match st with
  | [] => None
  | (k, v) :: rest => if same_account key k then Some v else last_alerted rest key
  end.

(** Modelled from the spec: recording the value that has just alerted. *)
Definition remember (st : hysteresis) (key : string * string) (v : Q) : hysteresis :=
  (key, v) :: filter (fun e => negb (same_account key (fst e))) st.

(** Modelled from the spec: the handler
    [src/agent/tasks/portfolio_monitor.py] is missing from the sources.
    [pct_change = (current.total_value - previous.total_value) /
    previous.total_value]. *)
Definition pct_change (previous current : Q) : Q :=
  (current - previous) / previous.

(** Modelled from the spec: the threshold test of the missing handler,
    [abs(pct_change) >= threshold] with the threshold given in percent. *)
Definition crosses (threshold : Q) (reference value : Q) : bool :=
  Qle_bool (threshold / 100) (Qabs (pct_change reference value)).

(** Modelled from the spec: the hysteresis test of the missing handler.
    A value has already triggered an alert when it lies within the
    threshold of the last-alerted value; it may alert again only once it
    is past the threshold relative to that value. *)
Definition outside_band (threshold : Q) (st : hysteresis)
  (key : string * string) (value : Q) : bool :=
  match last_alerted st key with
  | None => true
  | Some reference => crosses threshold reference value
  end.

(** Modelled from the spec: one run of the missing handler on the two
    most recent snapshots of an account.  It appends a
    [portfolio_change] notification and records the alerted value, or does
    nothing. *)
Definition monitor (threshold : Q) (st : hysteresis)
  (previous current : PortfolioSnapshot) : list Appended * hysteresis :=
  let key := (owner current, account_ref current) in
  if crosses threshold (total_value previous) (total_value current)
     && outside_band threshold st key (total_value current)
  then ([{| appended_owner := owner current;
            appended_type := "portfolio_change";
            appended_value := total_value current |}],
        remember st key (total_value current))
  else ([], st).

(** Modelled from the spec: successive polling cycles of the missing
    handler, one snapshot per cycle. *)
Fixpoint monitor_all (threshold : Q) (st : hysteresis)
  (previous : PortfolioSnapshot) (later : list PortfolioSnapshot)
  : list (list Appended) :=
  match later with
  | [] => []
  | current :: rest =>
      let '(out, st') := monitor threshold st previous current in
      out :: monitor_all threshold st' current rest
  end.

(** Modelled from the spec: the alert condition of the missing handler,
    as a proposition. *)
Definition alert_due (threshold : Q) (st : hysteresis)
  (previous current : PortfolioSnapshot) : Prop :=
  (threshold / 100 <= Qabs (pct_change (total_value previous) (total_value current)))%Q
  /\ match last_alerted st (owner current, account_ref current) with
     | None => True
     | Some reference =>
         (threshold / 100 <= Qabs (pct_change reference (total_value current)))%Q
     end.

(** Modelled from the spec: a snapshot of the example account with the
    given total value. *)
Definition snapshot_of (t : Z) (v : Z) : PortfolioSnapshot :=
  {| owner := "u1"; account_ref := "acc"; timestamp := t;
     total_value := inject_Z v; positions := [] |}.

End PortfolioMonitor.

(** ** Further operations on connections
    ([get_broker_token]; the row-level policies of [user_connections] and
    the calls [useUserConnections] makes under them) *)
Module ConnectionOps.
Import Bytea Connections.

Section Broker.

Variable pgp_sym_decrypt : bytea -> TEXT -> option TEXT.

(** [get_broker_token(p_connection_id)]: [SELECT ... INTO v_token] leaves
    [v_token] null when no row has the id. *)
Definition get_broker_token (db : database) (p_connection_id : UUID)
  : result (option TEXT) :=
  v_key <- current_setting db "app.encryption_key" ;;
  match find (fun r => N.eqb (id r) p_connection_id) (user_connections db) with
  | None => Ok None
  | Some r =>
      bs <- byteain (encrypted_token r) ;;
      match pgp_sym_decrypt bs v_key with
      | Some v_token => Ok (Some v_token)
      | None => Err (external_routine_exception "Wrong key or corrupt data")
      end
  end.

End Broker.

(** The policies "Users can update / delete their own connections":
    [USING (auth.uid() = user_id)]. *)
Definition own_row (auth_uid : option UUID) (r : user_connection) : bool :=
  match auth_uid with
  | Some u => N.eqb u (user_id r)
  | None => false
  end.

Definition set_is_active (r : user_connection) (isActive : bool) : user_connection :=
  {| id := id r; user_id := user_id r; broker_type := broker_type r;
     encrypted_token := encrypted_token r; is_active := Some isActive;
     created_at := created_at r; last_check_at := last_check_at r;
     metadata := metadata r |}.

(** [toggleConnectionStatus]:
    [from('user_connections').update({ is_active: isActive }).eq('id', connectionId)]
    issued by the session user [auth_uid]. *)
Definition toggleConnectionStatus (db : database) (auth_uid : option UUID)
  (connectionId : UUID) (isActive : bool) : database :=
  mk_database (auth_users db)
    (map (fun r => if own_row auth_uid r && N.eqb (id r) connectionId
                   then set_is_active r isActive else r)
         (user_connections db))
    (settings db).

(** [deleteConnection]:
    [from('user_connections').delete().eq('id', connectionId)]. *)
Definition deleteConnection (db : database) (auth_uid : option UUID)
  (connectionId : UUID) : database :=
  mk_database (auth_users db)
    (filter (fun r => negb (own_row auth_uid r && N.eqb (id r) connectionId))
            (user_connections db))
    (settings db).

(** Keys of the table: the primary key and [UNIQUE(user_id, broker_type)],
    with the foreign key to [auth.users]. *)
Definition keys_hold (db : database) : Prop :=
  NoDup (map id (user_connections db))
  /\ NoDup (map (fun r => (user_id r, broker_type r)) (user_connections db))
  /\ references_users db.

(** What a token update may change in a row: the ciphertext and the
    metadata, nothing else. *)
Definition same_but_token (r r' : user_connection) : Prop :=
  id r' = id r /\ user_id r' = user_id r /\ broker_type r' = broker_type r
  /\ is_active r' = is_active r /\ created_at r' = created_at r
  /\ last_check_at r' = last_check_at r.

End ConnectionOps.

(** ** The consumer hook of connections ([useUserConnections]) *)
Module UserConnectionsHook.

(** A cached connection is the JavaScript object of a row: its
    properties in order. *)
Definition js_object := list (string * json).

(** [a === b] on property values ([None] is [undefined]).  Arrays and
    objects are compared by identity, and the two sides come from
    different payloads. *)
Definition strict_equal (a b : option json) : bool :=
  match a, b with
  | None, None => true
  | Some JNull, Some JNull => true
  | Some (JBool x), Some (JBool y) => Bool.eqb x y
  | Some (JNumber x), Some (JNumber y) => Z.eqb x y
  | Some (JString x), Some (JString y) => String.eqb x y
  | _, _ => false
  end.

(** [{ ...a, ...b }] *)
Definition spread (a b : js_object) : js_object :=
  fold_left (fun acc kv => assoc_set (fst kv) (snd kv) acc) b a.

(** The payload of a [postgres_changes] event. *)
Inductive change : Type :=
| INSERT (new : js_object)
| UPDATE (new : js_object)
| DELETE (old : js_object)
| OtherEvent.

(** The subscription callback, as a function on the cached list. *)
Definition on_change (payload : change) (prev : list js_object) : list js_object :=
  match payload with
  | INSERT new => new :: prev
  | UPDATE new =>
      map (fun conn =>
             if strict_equal (assoc "id" conn) (assoc "id" new)
             then spread conn new else conn)
          prev
  | DELETE old =>
      filter (fun conn => negb (strict_equal (assoc "id" conn) (assoc "id" old)))
             prev
  | OtherEvent => prev
  end.

(** A well-formed object names each property once. *)
Definition distinct_keys (o : js_object) : Prop := NoDup (map fst o).

Definition demo_connection (ident : string) (active : bool) : js_object :=
  [("id", JString ident); ("broker_type", JString "tinkoff");
   ("is_active", JBool active)].

End UserConnectionsHook.

(** ** The first notification schema
    ([migrations/20240320_create_notifications.sql]) *)
Module NotificationLog.

Definition UUID := N.
Definition timestamptz := Z.

(** A row of [notifications] in that schema; [metadata], [read] and
    [dismissed] are nullable. *)
Record notification : Type := mk_notification {
  id : UUID;
  user_id : UUID;
  type : string;
  title : string;
  message : string;
  priority : string;
  metadata : option json;
  read : option bool;
  dismissed : option bool;
  created_at : timestamptz
}.

(** [column = false]: not satisfied by null. *)
Definition is_false (b : option bool) : bool :=
  match b with
  | Some false => true
  | _ => false
  end.

(** [count_unread_notifications(p_user_id)] *)
Definition count_unread_notifications (rows : list notification) (p_user_id : UUID)
  : Z :=
  Z.of_nat (List.length
              (filter (fun n => N.eqb (user_id n) p_user_id
                                && is_false (read n) && is_false (dismissed n))
                      rows)).

(** What a call of [delete_old_notifications] does: it deletes and
    leaves [kept], or it raises "timestamp out of range" (SQLSTATE 22008)
    and deletes nothing. *)
Inductive retention : Type :=
| Deleted (kept : list notification)
| TimestampOutOfRange.

Section Retention.

(** [t - (d || ' days')::INTERVAL] on [timestamptz]; [None] when the
    result leaves the range of the type. *)
Variable minus_days : timestamptz -> Z -> option timestamptz.

(** [delete_old_notifications(p_days)] run at time [now]; with a null
    [p_days] the cut-off is null and the condition holds for no row. *)
Definition delete_old_notifications (rows : list notification)
  (now : timestamptz) (p_days : option Z) : retention :=
  match p_days with
  | None => Deleted rows
  | Some days =>
      match minus_days now days with
      | Some cutoff =>
          Deleted (filter (fun n => negb (created_at n <? cutoff)) rows)
      | None => TimestampOutOfRange
      end
  end.

End Retention.

(** The subtraction in a session whose time zone is UTC, on microseconds
    since 2000-01-01: a day is 86400 seconds, and the type spans 4713 BC
    to 294276 AD. *)
Definition utc_minus_days (t : timestamptz) (d : Z) : option timestamptz :=
  let r := t - d * 86400000000 in
  if (-211813488000000000 <=? r) && (r <? 9223371331200000000)
  then Some r else None.

Definition demo_notification (i : UUID) (at_ : timestamptz) : notification :=
  {| id := i; user_id := 1%N; type := "price_alert"; title := "t";
     message := "m"; priority := "high"; metadata := None;
     read := Some false; dismissed := Some false; created_at := at_ |}.

End NotificationLog.

(** ** The chat client
    ([lovable/src/services/mcp.ts] and the [Chat] component) *)
Module Chat.

(** A truthy value used as an error: an object with a [message], or a
    value without one. *)
Inductive error_value : Type :=
| WithMessage (message : string)
| WithoutMessage.

(** What a promise may reject with. *)
Inductive reason : Type :=
| Truthy (e : error_value)
| Nullish.

(** The outcome of [supabase.functions.invoke]: it resolves to
    [{ data, error }] ([None] is null or undefined), or rejects. *)
Inductive invoke_outcome : Type :=
| Resolved (data : option json) (error : option error_value)
| Rejected (r : reason).

Record MCPResponse : Type := mk_response {
  success : bool;
  error : option string;
  data : option json
}.

Inductive settled (A : Type) : Type :=
| Fulfilled (a : A)
| Failed.
Arguments Fulfilled {A} a.
Arguments Failed {A}.

(** [error.message] in the [catch] block of [request]. *)
Definition message_of (e : error_value) : option string :=
  match e with
  | WithMessage m => Some m
  | WithoutMessage => None
  end.

Inductive sender : Type := user | assistant.

Record chat_message : Type := mk_message {
  type : sender;
  content : option json      (* [None] is [undefined] *)
}.

Record chat_state : Type := mk_state {
  messages : list chat_message;
  isLoading : bool
}.

Definition apology : string :=
  "Извините, произошла ошибка. Пожалуйста, попробуйте позже.".

(** [response.data.message]: reading a property of null or undefined
    throws. *)
Definition data_message (d : option json) : settled (option json) :=
  match d with
  | None => Failed
  | Some JNull => Failed
  | Some (JObject fields) => Fulfilled (assoc "message" fields)
  | Some _ => Fulfilled None
  end.

Section Service.

(** [supabase.functions.invoke(name, { body })] and
    [String.prototype.trim]. *)
Variable invoke : string -> json -> invoke_outcome.
Variable trim : string -> string.

(** [mcpService.request(type)] *)
Definition request (request_type : string) : settled MCPResponse :=
  match invoke "mcp-agent" (JObject [("type", JString request_type)]) with
  | Resolved d None =>
      Fulfilled {| success := true; error := None; data := d |}
  | Resolved _ (Some e) =>
      Fulfilled {| success := false; error := message_of e; data := None |}
  | Rejected (Truthy e) =>
      Fulfilled {| success := false; error := message_of e; data := None |}
  | Rejected Nullish => Failed
  end.

Definition getPortfolio : settled MCPResponse := request "portfolio".
Definition getAnalysis : settled MCPResponse := request "analysis".
Definition sendMessage (message : string) : settled MCPResponse := request "chat".

Definition apology_entry : chat_message :=
  {| type := assistant; content := Some (JString apology) |}.

(** The updater handed to [setMessages] on success,
    [prev => [...prev, { type: 'assistant', content: response.data.message }]]:
    React runs it after [handleSendMessage] has left its [try] block, and
    it throws when [response.data] is null or undefined. *)
Definition append_reply (response : MCPResponse) (prev : list chat_message)
  : settled (list chat_message) :=
  match data_message (data response) with
  | Fulfilled c =>
      Fulfilled (prev ++ [{| type := assistant; content := c |}])%list
  | Failed => Failed
  end.

(** [handleSendMessage], from the call to the state React renders next;
    [Failed] when an updater throws during that render. *)
Definition handleSendMessage (st : chat_state) (message : string)
  : settled chat_state :=
  if String.eqb (trim message) EmptyString then Fulfilled st
  else
    let asked := (messages st ++ [{| type := user;
                                     content := Some (JString message) |}])%list in
    match sendMessage message with
    | Fulfilled response =>
        if success response then
          match append_reply response asked with
          | Fulfilled answered =>
              Fulfilled {| messages := answered; isLoading := false |}
          | Failed => Failed
          end
        else Fulfilled {| messages := (asked ++ [apology_entry])%list;
                          isLoading := false |}
    | Failed => Fulfilled {| messages := (asked ++ [apology_entry])%list;
                             isLoading := false |}
    end.

End Service.

End Chat.

(** * Properties *)

(** ** The casts between [bytea] and text *)
Module ByteaFacts.
Import Bytea.

Lemma hex_decode_byte_hex (b : byte) (rest : string) :
  hex_decode (byte_hex b ++ rest) =
  match hex_decode rest with
  | Some bs => Some (b :: bs)
  | None => None
  end.
Proof. destruct b; reflexivity. Qed.

Lemma hex_decode_encode (bs : bytea) : hex_decode (hex_encode bs) = Some bs.
Proof.
  induction bs as [|b bs IH]; [reflexivity|].
  cbn [hex_encode]. rewrite hex_decode_byte_hex, IH. reflexivity.
Qed.

(** Printing a [bytea] as text and reading it back is the identity. *)
Lemma byteain_byteaout (bs : bytea) : byteain (byteaout bs) = Ok bs.
Proof.
  unfold byteaout, byteain. cbn.
  rewrite hex_decode_encode. reflexivity.
Qed.

End ByteaFacts.

(** ** Credential vault and connection lifecycle *)
Module ConnectionsFacts.
Import Bytea Connections ByteaFacts.

Lemma owns_token_iff (db : database) (u : UUID) (c : TEXT) :
  owns_token db u c = true <-> stored_for db u c.
Proof.
  unfold owns_token, stored_for. rewrite existsb_exists.
  split; intros [row [Hin H]]; exists row; split; auto.
  - apply andb_true_iff in H. destruct H as [H1 H2].
    apply N.eqb_eq in H1. apply String.eqb_eq in H2. auto.
  - destruct H as [H1 H2]. apply andb_true_iff.
    split; [apply N.eqb_eq | apply String.eqb_eq]; assumption.
Qed.

Lemma user_exists_iff (db : database) (u : UUID) :
  user_exists db u = true <-> In u (auth_users db).
Proof.
  unfold user_exists. rewrite existsb_exists. split.
  - intros [x [Hin H]]. apply N.eqb_eq in H. subst. assumption.
  - intros H. exists u. split; [assumption | apply N.eqb_refl].
Qed.

Lemma pair_exists_iff (db : database) (u : UUID) (b : TEXT) :
  existsb (fun r => N.eqb (user_id r) u && String.eqb (broker_type r) b)
          (user_connections db) = true <-> pair_exists db u b.
Proof.
  unfold pair_exists. rewrite existsb_exists.
  split; intros [row [Hin H]]; exists row; split; auto.
  - apply andb_true_iff in H. destruct H as [H1 H2].
    apply N.eqb_eq in H1. apply String.eqb_eq in H2. auto.
  - destruct H as [H1 H2]. apply andb_true_iff.
    split; [apply N.eqb_eq | apply String.eqb_eq]; assumption.
Qed.

Lemma demo_roundtrip (data psw : TEXT) (entropy : N) :
  demo_decrypt (demo_encrypt data psw entropy) psw = Some data.
Proof.
  unfold demo_encrypt, demo_decrypt.
  destruct (Byte.of_N (entropy mod 256)) as [e|] eqn:He.
  2:{ apply Byte.of_N_None_iff in He.
      pose proof (N.mod_upper_bound entropy 256). lia. }
  destruct (Byte.of_N (N.of_nat (String.length psw) mod 256)) as [l|] eqn:Hl.
  2:{ apply Byte.of_N_None_iff in Hl.
      pose proof (N.mod_upper_bound (N.of_nat (String.length psw)) 256). lia. }
  apply Byte.to_of_N in Hl. rewrite Hl, N.eqb_refl.
  rewrite string_of_list_byte_of_string. reflexivity.
Qed.

Lemma encrypt_token_usable (pgp_sym_encrypt : TEXT -> TEXT -> N -> bytea)
  (db : database) (k : TEXT) (entropy : N) (t : TEXT) (u : UUID) :
  current_setting db encryption_key = Ok k -> k <> EmptyString ->
  encrypt_token pgp_sym_encrypt db entropy t u
  = Ok (byteaout (pgp_sym_encrypt t k entropy)).
Proof.
  intros Hk Hne. unfold encrypt_token, sym_encrypt. fold encryption_key.
  rewrite Hk. cbn [bind]. apply String.eqb_neq in Hne. rewrite Hne. reflexivity.
Qed.

Lemma encrypt_token_inv (pgp_sym_encrypt : TEXT -> TEXT -> N -> bytea)
  (db : database) (entropy : N) (t : TEXT) (u : UUID) (c : TEXT) :
  encrypt_token pgp_sym_encrypt db entropy t u = Ok c ->
  exists k, current_setting db encryption_key = Ok k /\ k <> EmptyString
            /\ c = byteaout (pgp_sym_encrypt t k entropy).
Proof.
  unfold encrypt_token, sym_encrypt. fold encryption_key.
  destruct (current_setting db encryption_key) as [k|e]; cbn [bind]; [|discriminate].
  destruct (String.eqb k EmptyString) eqn:E; cbn [bind]; [discriminate|].
  intros H. injection H as <-. exists k. split; [reflexivity|].
  split; [|reflexivity]. apply String.eqb_neq. exact E.
Qed.

Section VaultFacts.

Variable pgp_sym_encrypt : TEXT -> TEXT -> N -> bytea.
Variable pgp_sym_decrypt : bytea -> TEXT -> option TEXT.
Variable timestamptz_out : timestamptz -> string.
Variable current_user : string.

(** pgcrypto decrypts, under the same password, what it encrypted. *)
Hypothesis pgp_roundtrip : forall data psw entropy,
  pgp_sym_decrypt (pgp_sym_encrypt data psw entropy) psw = Some data.

Lemma decrypt_token_denied (db : database) (c : TEXT) (u : UUID) :
  ~ stored_for db u c ->
  decrypt_token pgp_sym_decrypt db c u = Err AccessDenied.
Proof.
  intros Hno. unfold decrypt_token.
  destruct (owns_token db u c) eqn:Ho; [|reflexivity].
  apply owns_token_iff in Ho. contradiction.
Qed.

Lemma decrypt_token_ok_stored (db : database) (c : TEXT) (u : UUID) (p : TEXT) :
  decrypt_token pgp_sym_decrypt db c u = Ok p -> stored_for db u c.
Proof.
  unfold decrypt_token.
  destruct (owns_token db u c) eqn:Ho; [|discriminate].
  intros _. apply owns_token_iff. assumption.
Qed.

Lemma decrypt_token_of_encryption (db : database) (k : TEXT) (entropy : N)
  (s : TEXT) (u : UUID) :
  current_setting db encryption_key = Ok k ->
  stored_for db u (byteaout (pgp_sym_encrypt s k entropy)) ->
  decrypt_token pgp_sym_decrypt db (byteaout (pgp_sym_encrypt s k entropy)) u = Ok s.
Proof.
  intros Hk Hst. unfold decrypt_token.
  apply owns_token_iff in Hst. rewrite Hst. cbn [negb].
  fold encryption_key. rewrite Hk. cbn [bind].
  rewrite byteain_byteaout. cbn [bind].
  rewrite pgp_roundtrip. reflexivity.
Qed.

(** C1. Vault round trip: a secret [s] encrypted under the configured
    key [k] and stored in a record owned by [u] is returned by
    [decrypt_token] when [u] asks for it under the same key. *)
Theorem decrypt_encrypt_roundtrip
  (db db' : database) (k : TEXT) (entropy : N) (s : TEXT) (u : UUID) (c : TEXT) :
  current_setting db encryption_key = Ok k ->
  current_setting db' encryption_key = Ok k ->
  encrypt_token pgp_sym_encrypt db entropy s u = Ok c ->
  stored_for db' u c ->
  decrypt_token pgp_sym_decrypt db' c u = Ok s.
Proof.
  intros Hk Hk' Henc Hst.
  apply encrypt_token_inv in Henc. destruct Henc as [k0 [Hk0 [_ ->]]].
  rewrite Hk in Hk0. injection Hk0 as <-.
  apply decrypt_token_of_encryption; assumption.
Qed.

(** C2, as the code has it. [decrypt_token] raises [Access denied]
    exactly when no record of the requestor [r] stores the ciphertext
    [c], that is, when every record that stores it belongs to another
    owner; it then returns no plaintext, whatever the key. *)
Theorem decrypt_other_owner_denied (db : database) (c : TEXT) (r : UUID) :
  ((forall row, In row (user_connections db) ->
                encrypted_token row = c -> user_id row <> r)
   <-> decrypt_token pgp_sym_decrypt db c r = Err AccessDenied)
  /\ ((forall row, In row (user_connections db) ->
                   encrypted_token row = c -> user_id row <> r) ->
      forall p, decrypt_token pgp_sym_decrypt db c r <> Ok p).
Proof.
  assert (Hd : (forall row, In row (user_connections db) ->
                            encrypted_token row = c -> user_id row <> r) ->
               decrypt_token pgp_sym_decrypt db c r = Err AccessDenied).
  { intros Hown. apply decrypt_token_denied. intros [row [Hin [Hu Hc]]].
    exact (Hown row Hin Hc Hu). }
  split; [split; [exact Hd|] |].
  - intros Hden row Hin Hc Hu.
    assert (Ho : owns_token db r c = true).
    { apply owns_token_iff. exists row. auto. }
    unfold decrypt_token in Hden. rewrite Ho in Hden. cbn [negb] in Hden.
    unfold current_setting, byteain in Hden.
    destruct (assoc "app.encryption_key" (settings db)); cbn [bind] in Hden;
      [|discriminate].
    match type of Hden with
    | context [match ?parsed with Some _ => _ | None => _ end] =>
        destruct parsed; cbn [bind] in Hden; [|discriminate]
    end.
    destruct (pgp_sym_decrypt _ _); discriminate.
  - intros Hown p Hp. rewrite (Hd Hown) in Hp. discriminate.
Qed.

(** C10. [decrypt_token] succeeds only for a ciphertext stored in a row
    of the requesting owner: without such a row it raises
    [Access denied]; a ciphertext that [encrypt_token] has just produced
    and that no row stores yet is refused to every requestor, although
    the key is configured. *)
Theorem decrypt_requires_stored_token (db : database) :
  (forall c u, ~ stored_for db u c ->
               decrypt_token pgp_sym_decrypt db c u = Err AccessDenied)
  /\ (forall c u p, decrypt_token pgp_sym_decrypt db c u = Ok p ->
                    stored_for db u c)
  /\ (forall entropy s w c,
        encrypt_token pgp_sym_encrypt db entropy s w = Ok c ->
        (forall row, In row (user_connections db) -> encrypted_token row <> c) ->
        forall u, decrypt_token pgp_sym_decrypt db c u = Err AccessDenied).
Proof.
  split; [|split].
  - intros c u. apply decrypt_token_denied.
  - intros c u p. apply decrypt_token_ok_stored.
  - intros entropy s w c _ Hfresh u. apply decrypt_token_denied.
    intros [row [Hin [_ Hc]]]. exact (Hfresh row Hin Hc).
Qed.

End VaultFacts.

Lemma decrypt_encrypt_roundtrip_witness :
  decrypt_token demo_decrypt demo_db
    (byteaout (demo_encrypt "t-secret" "k3y" 5)) 7%N = Ok "t-secret".
Proof.
  apply (decrypt_encrypt_roundtrip demo_encrypt demo_decrypt demo_roundtrip
           demo_empty demo_db "k3y" 5%N "t-secret" 7%N).
  - reflexivity.
  - reflexivity.
  - reflexivity.
  - exists demo_row. split; [left; reflexivity | split; reflexivity].
Defined.

Lemma decrypt_other_owner_denied_witness :
  decrypt_token demo_decrypt copied_db
    (byteaout (demo_encrypt "t-secret" "k3y" 5)) 9%N = Err AccessDenied.
Proof.
  apply (decrypt_other_owner_denied demo_decrypt copied_db
           (byteaout (demo_encrypt "t-secret" "k3y" 5)) 9%N).
  intros row [<- | [<- | []]] _; discriminate.
Defined.

Lemma decrypt_requires_stored_token_witness :
  decrypt_token demo_decrypt demo_empty
    (byteaout (demo_encrypt "t-secret" "k3y" 5)) 7%N = Err AccessDenied.
Proof.
  apply (proj2 (proj2 (decrypt_requires_stored_token demo_encrypt demo_decrypt demo_empty))
           5%N "t-secret" 7%N).
  - reflexivity.
  - intros row [].
Defined.

(** C2, as stated, fails: the guard looks for a row of the requestor
    that stores the ciphertext, so a requestor who holds a copy of the
    ciphertext of another owner's record is served its plaintext. *)
Lemma decrypt_copied_ciphertext :
  In demo_row (user_connections copied_db)
  /\ user_id demo_row = 7%N
  /\ 8%N <> user_id demo_row
  /\ decrypt_token demo_decrypt copied_db (encrypted_token demo_row) 8%N
     = Ok "t-secret".
Proof.
  split; [left; reflexivity|]. split; [reflexivity|].
  split; [discriminate | reflexivity].
Qed.

End ConnectionsFacts.

(** ** Connection lifecycle: create, update, due-set *)
Module LifecycleFacts.
Import Bytea Connections ByteaFacts ConnectionsFacts.

Lemma assoc_set_same {A : Type} (k : string) (v : A) (l : list (string * A)) :
  assoc k (assoc_set k v l) = Some v.
Proof.
  induction l as [|[k' v'] l IH]; cbn.
  - rewrite String.eqb_refl. reflexivity.
  - destruct (String.eqb k k') eqn:E; cbn; rewrite E; [reflexivity | exact IH].
Qed.

Lemma assoc_set_other {A : Type} (k k0 : string) (v : A) (l : list (string * A)) :
  k0 <> k -> assoc k0 (assoc_set k v l) = assoc k0 l.
Proof.
  intros Hne. induction l as [|[k' v'] l IH]; cbn.
  - destruct (String.eqb k0 k) eqn:E; [|reflexivity].
    apply String.eqb_eq in E. contradiction.
  - destruct (String.eqb k k') eqn:E; cbn.
    + apply String.eqb_eq in E. subst k'.
      destruct (String.eqb k0 k) eqn:E0; [|reflexivity].
      apply String.eqb_eq in E0. contradiction.
    + rewrite IH. reflexivity.
Qed.

Lemma existsb_false_iff {A : Type} (f : A -> bool) (l : list A) :
  existsb f l = false <-> forall x, In x l -> f x = false.
Proof.
  split.
  - intros H x Hin. destruct (f x) eqn:E; [|reflexivity].
    rewrite <- H. symmetry. apply existsb_exists. exists x. auto.
  - intros H. destruct (existsb f l) eqn:E; [|reflexivity].
    apply existsb_exists in E. destruct E as [x [Hin Hx]].
    rewrite (H x Hin) in Hx. discriminate.
Qed.


Lemma Forall2_map_self {A : Type} (R : A -> A -> Prop) (h : A -> A) (l : list A) :
  (forall x, In x l -> R x (h x)) -> Forall2 R l (map h l).
Proof.
  induction l as [|x l IH]; intros H; cbn; constructor.
  - apply H. left. reflexivity.
  - apply IH. intros y Hy. apply H. right. assumption.
Qed.

Lemma in_get_active_connections (db : database) (now : timestamptz)
  (c : user_connection) :
  In c (get_active_connections db now)
  <-> In c (user_connections db) /\ due now c.
Proof.
  unfold get_active_connections, due. rewrite filter_In.
  split; intros [Hin H]; (split; [assumption|]).
  - destruct (is_active c) as [[|]|]; try discriminate.
    split; [reflexivity|].
    destruct (last_check_at c) as [t|]; [right | left; reflexivity].
    exists t. split; [reflexivity|]. apply Z.ltb_lt. assumption.
  - destruct H as [Ha [Hn | [t [Ht Hlt]]]]; rewrite Ha.
    + rewrite Hn. reflexivity.
    + rewrite Ht. apply Z.ltb_lt. assumption.
Qed.

Section Lifecycle.

Variable pgp_sym_encrypt : TEXT -> TEXT -> N -> bytea.
Variable pgp_sym_decrypt : bytea -> TEXT -> option TEXT.
Variable timestamptz_out : timestamptz -> string.
Variable current_user : string.

Hypothesis pgp_roundtrip : forall data psw entropy,
  pgp_sym_decrypt (pgp_sym_encrypt data psw entropy) psw = Some data.

Local Abbreviation create :=
  (create_user_connection pgp_sym_encrypt timestamptz_out current_user).
Local Abbreviation update :=
  (update_user_connection_token pgp_sym_encrypt timestamptz_out).

Lemma create_unknown_user (db : database) now uuid entropy u b t :
  ~ In u (auth_users db) -> create db now uuid entropy u b t = Err UserNotFound.
Proof.
  intros Hu. unfold create_user_connection.
  destruct (user_exists db u) eqn:E; [|reflexivity].
  apply user_exists_iff in E. contradiction.
Qed.

Lemma create_existing_pair (db : database) now uuid entropy u b t :
  key_usable db -> In u (auth_users db) -> pair_exists db u b ->
  is_conflict (create db now uuid entropy u b t).
Proof.
  intros [k [Hk Hne]] Hu Hp. unfold create_user_connection.
  apply user_exists_iff in Hu. rewrite Hu. cbn [negb].
  rewrite (encrypt_token_usable pgp_sym_encrypt db k entropy t u Hk Hne).
  cbn [bind].
  unfold insert_user_connection. cbn [id user_id broker_type].
  destruct (existsb _ (user_connections db)) eqn:Epk; cbn [bind].
  - eexists. reflexivity.
  - apply pair_exists_iff in Hp. rewrite Hp. cbn [bind]. eexists. reflexivity.
Qed.

Lemma create_fresh_pair (db : database) now uuid entropy u b t :
  key_usable db -> In u (auth_users db) -> ~ pair_exists db u b ->
  (forall row, In row (user_connections db) -> id row <> uuid) ->
  exists db', create db now uuid entropy u b t = Ok (uuid, db')
              /\ key_usable db' /\ In u (auth_users db')
              /\ pair_exists db' u b.
Proof.
  intros [k [Hk Hne]] Hu Hp Hid. unfold create_user_connection.
  pose proof Hu as Hu'. apply user_exists_iff in Hu'. rewrite Hu'. cbn [negb].
  rewrite (encrypt_token_usable pgp_sym_encrypt db k entropy t u Hk Hne).
  cbn [bind].
  unfold insert_user_connection. cbn [id user_id broker_type].
  replace (existsb (fun r => N.eqb (id r) uuid) (user_connections db)) with false.
  2:{ symmetry. apply existsb_false_iff. intros x Hx.
      apply N.eqb_neq. apply Hid. assumption. }
  replace (existsb (fun r => N.eqb (user_id r) u && String.eqb (broker_type r) b)
                   (user_connections db)) with false.
  2:{ symmetry. destruct (existsb _ (user_connections db)) eqn:E; [|reflexivity].
      apply pair_exists_iff in E. contradiction. }
  rewrite Hu'. cbn [negb bind].
  eexists. split; [reflexivity|]. split; [|split].
  - exists k. split; [exact Hk | exact Hne].
  - exact Hu.
  - eexists. split; [apply in_or_app; right; left; reflexivity|].
    split; reflexivity.
Qed.

(** A connection just created decrypts, for its owner, to the secret it
    was created with. *)
Lemma create_then_decrypt (db db' : database) now uuid entropy u b t :
  create db now uuid entropy u b t = Ok (uuid, db') ->
  exists row, In row (user_connections db')
              /\ id row = uuid /\ user_id row = u /\ broker_type row = b
              /\ decrypt_token pgp_sym_decrypt db' (encrypted_token row) u = Ok t.
Proof.
  unfold create_user_connection.
  destruct (user_exists db u); cbn [negb]; [|discriminate].
  destruct (encrypt_token pgp_sym_encrypt db entropy t u) as [tok|e] eqn:He;
    cbn [bind]; [|discriminate].
  apply encrypt_token_inv in He. destruct He as [k [Hk [_ ->]]].
  unfold insert_user_connection. cbn [id user_id broker_type].
  destruct (existsb _ (user_connections db)); [discriminate|].
  destruct (existsb _ (user_connections db)); [discriminate|].
  destruct (negb (user_exists db u)); [discriminate|].
  cbn [bind]. intros H. injection H as <-.
  eexists. split; [apply in_or_app; right; left; reflexivity|].
  cbn [id user_id broker_type encrypted_token].
  repeat (split; [reflexivity|]).
  apply (decrypt_token_of_encryption pgp_sym_encrypt pgp_sym_decrypt pgp_roundtrip).
  - exact Hk.
  - eexists. split; [apply in_or_app; right; left; reflexivity|].
    split; reflexivity.
Qed.

(** C4, as the code has it. [create_user_connection] raises
    [User not found] for an unknown owner.  On a database whose key is
    configured and not empty and whose connections reference known users
    it fails with a unique violation whenever the pair
    (owner, broker_type) is taken.  For a known owner, a free pair
    and a fresh id the first call succeeds, and every later call for the
    pair, whatever the secret, fails with a unique violation. *)
Theorem create_conflict_and_not_found
  (db : database) (now : timestamptz) (uuid : UUID) (entropy : N)
  (u : UUID) (b : TEXT) (t : TEXT) :
  (~ In u (auth_users db) -> create db now uuid entropy u b t = Err UserNotFound)
  /\ (key_usable db -> references_users db -> pair_exists db u b ->
      is_conflict (create db now uuid entropy u b t))
  /\ (key_usable db -> In u (auth_users db) -> ~ pair_exists db u b ->
      (forall row, In row (user_connections db) -> id row <> uuid) ->
      exists db',
        create db now uuid entropy u b t = Ok (uuid, db')
        /\ forall now' uuid' entropy' t',
             is_conflict (create db' now' uuid' entropy' u b t')).
Proof.
  split; [|split].
  - apply create_unknown_user.
  - intros Hkey Hfk Hp. apply create_existing_pair; try assumption.
    destruct Hp as [row [Hin [Hu _]]]. rewrite <- Hu. apply Hfk. assumption.
  - intros Hkey Hu Hp Hid.
    destruct (create_fresh_pair db now uuid entropy u b t Hkey Hu Hp Hid)
      as [db' [Hc [Hk' [Hu' Hp']]]].
    exists db'. split; [assumption|].
    intros now' uuid' entropy' t'. apply create_existing_pair; assumption.
Qed.


End Lifecycle.

(** C3, as the code has it. [get_active_connections] only reads: it
    returns exactly the stored connections that are active and whose
    last_check_at is null or more than five minutes old, and it updates
    nothing; a connection it returns at one time is returned again at any
    later time for as long as its row stays as it is. *)
Theorem due_set_is_a_pure_selection
  (db : database) (t1 t2 : timestamptz) (c : user_connection) :
  t1 <= t2 ->
  (In c (get_active_connections db t1)
   <-> In c (user_connections db) /\ due t1 c)
  /\ (In c (get_active_connections db t1) -> In c (get_active_connections db t2)).
Proof.
  intros Hle. split; [apply in_get_active_connections|].
  rewrite !in_get_active_connections. intros [Hin [Ha Hd]].
  split; [assumption|]. split; [assumption|].
  destruct Hd as [Hn | [t [Ht Hlt]]]; [left; assumption | right].
  exists t. split; [assumption | lia].
Qed.

(** C3, as stated, fails: selecting the due-set leaves last_check_at as
    it was (here null), so a tick that overlaps the first one selects the
    same connection again. *)
Lemma overlapping_ticks_select_same_connection :
  In demo_row (get_active_connections demo_db 2000)
  /\ In demo_row (user_connections demo_db)
  /\ last_check_at demo_row = None
  /\ In demo_row (get_active_connections demo_db 2001).
Proof.
  repeat split; try (left; reflexivity).
Qed.

Lemma due_set_is_a_pure_selection_witness :
  In demo_row (get_active_connections demo_db 3000).
Proof.
  apply (proj2 (due_set_is_a_pure_selection demo_db 2000 3000 demo_row
                  ltac:(discriminate))).
  left. reflexivity.
Defined.

Lemma create_conflict_and_not_found_witness :
  (exists db',
      create_user_connection demo_encrypt demo_timestamptz_out "postgres"
        demo_empty 1000 1%N 5%N 7%N "tinkoff" "t-secret" = Ok (1%N, db')
      /\ is_conflict
           (create_user_connection demo_encrypt demo_timestamptz_out "postgres"
              db' 2000 2%N 9%N 7%N "tinkoff" "t2"))
  /\ create_user_connection demo_encrypt demo_timestamptz_out "postgres"
       demo_empty 1000 1%N 5%N 8%N "tinkoff" "t-secret" = Err UserNotFound.
Proof.
  split.
  - destruct (create_conflict_and_not_found demo_encrypt demo_timestamptz_out
                "postgres" demo_empty 1000 1%N 5%N 7%N "tinkoff" "t-secret")
      as [_ [_ H]].
    destruct H as [db' [Hc Hn]].
    + exists "k3y". split; [reflexivity | discriminate].
    + left. reflexivity.
    + intros [row [[] _]].
    + intros row [].
    + exists db'. split; [exact Hc | apply Hn].
  - apply (create_conflict_and_not_found demo_encrypt demo_timestamptz_out
             "postgres" demo_empty 1000 1%N 5%N 8%N "tinkoff" "t-secret").
    intros [H | []]. discriminate.
Defined.

(** C4, as stated, fails: the secret is encrypted before the row is
    inserted, so for a pair that is taken the call raises the error of the
    missing setting, or pgcrypto's for an empty key, and no unique
    violation. *)
Lemma taken_pair_without_usable_key :
  let unset := mk_database [7%N] [demo_row] [] in
  let empty := demo_db_with EmptyString (metadata demo_row) in
  let create db :=
    create_user_connection demo_encrypt demo_timestamptz_out "postgres"
      db 2000 2%N 9%N 7%N "tinkoff" "t2" in
  pair_exists unset 7%N "tinkoff"
  /\ create unset = Err (undefined_object encryption_key)
  /\ ~ is_conflict (create unset)
  /\ pair_exists empty 7%N "tinkoff"
  /\ create empty = Err (external_routine_exception "Illegal argument to function")
  /\ ~ is_conflict (create empty).
Proof.
  cbv zeta.
  split; [exists demo_row; split; [left; reflexivity | split; reflexivity]|].
  split; [reflexivity|].
  split; [intros [c H]; vm_compute in H; discriminate|].
  split; [eexists; split; [left; reflexivity | split; reflexivity]|].
  split; [reflexivity|].
  intros [c H]. vm_compute in H. discriminate.
Qed.




End LifecycleFacts.

(** ** The consumer's unread counter *)
Module NotificationsFacts.
Import Notifications.

Lemma with_status_read_not_unread (n : Notification) :
  is_unread (with_status n "read") = false.
Proof. reflexivity. Qed.




(** The store side of [markAsRead] is idempotent. *)
Lemma update_read_by_id_idempotent (rows : list Notification)
  (user : option UUID) (notificationId : UUID) :
  update_read_by_id (update_read_by_id rows user notificationId) user notificationId
  = update_read_by_id rows user notificationId.
Proof.
  unfold update_read_by_id. rewrite map_map. apply map_ext. intros n.
  destruct (may_update user n && N.eqb (id n) notificationId) eqn:E.
  - assert (E' : may_update user (with_status n "read")
                 && N.eqb (id (with_status n "read")) notificationId = true)
      by (destruct user; exact E).
    rewrite E'. reflexivity.
  - rewrite E. reflexivity.
Qed.

(** A second successful [markAsRead] for the same id leaves the store,
    the cached list and the error as the first call left them, and takes
    one more off the counter. *)
Lemma markAsRead_again (user : option UUID) (notificationId : UUID) (w : world) :
  let w1 := markAsRead user notificationId None w in
  let w2 := markAsRead user notificationId None w1 in
  table w2 = table w1
  /\ notifications (hook w2) = notifications (hook w1)
  /\ error (hook w2) = error (hook w1)
  /\ unreadCount (hook w2) = unreadCount (hook w1) - 1.
Proof.
  cbn. split; [apply update_read_by_id_idempotent|].
  split; [|split; reflexivity].
  rewrite map_map. apply map_ext. intros n.
  destruct (N.eqb (id n) notificationId) eqn:E.
  - cbn. rewrite E. reflexivity.
  - rewrite E. reflexivity.
Qed.

Lemma sorts_before_total (a b : option Z) :
  sorts_before a b = false -> sorts_before b a = true.
Proof.
  destruct a as [x|], b as [y|]; cbn; intros H; try discriminate; try reflexivity.
  apply Z.leb_le. apply Z.leb_gt in H. lia.
Qed.

Lemma sorts_before_trans (a b c : option Z) :
  sorts_before a b = true -> sorts_before b c = true -> sorts_before a c = true.
Proof.
  destruct a as [x|], b as [y|], c as [z|]; cbn; intros H1 H2;
    try discriminate; try reflexivity.
  apply Z.leb_le. apply Z.leb_le in H1, H2. lia.
Qed.

Lemma in_insert_desc (n x : Notification) (l : list Notification) :
  In x (insert_desc n l) <-> x = n \/ In x l.
Proof.
  induction l as [|m l IH]; cbn [insert_desc].
  - cbn. intuition.
  - destruct (sorts_before (created_at n) (created_at m)).
    + cbn. intuition.
    + cbn [In]. rewrite IH. intuition.
Qed.

Lemma in_ordered (x : Notification) (l : list Notification) :
  In x (order_by_created_at_desc l) <-> In x l.
Proof.
  unfold order_by_created_at_desc. induction l as [|n l IH]; [reflexivity|].
  cbn [fold_right]. rewrite in_insert_desc, IH. cbn. intuition.
Qed.

Lemma count_insert_desc (f : Notification -> bool) (n : Notification)
  (l : list Notification) :
  List.length (filter f (insert_desc n l)) = List.length (filter f (n :: l)).
Proof.
  induction l as [|m l IH]; [reflexivity|].
  cbn [insert_desc]. destruct (sorts_before (created_at n) (created_at m));
    [reflexivity|].
  cbn [filter] in *. destruct (f m), (f n); cbn [List.length] in *; lia.
Qed.

Lemma count_ordered (f : Notification -> bool) (l : list Notification) :
  List.length (filter f (order_by_created_at_desc l)) = List.length (filter f l).
Proof.
  unfold order_by_created_at_desc. induction l as [|n l IH]; [reflexivity|].
  cbn [fold_right]. rewrite count_insert_desc. cbn [filter].
  destruct (f n); cbn [List.length]; rewrite IH; reflexivity.
Qed.

Lemma length_ordered (l : list Notification) :
  List.length (order_by_created_at_desc l) = List.length l.
Proof.
  assert (H : forall k : list Notification,
             filter (fun _ : Notification => true) k = k).
  { induction k as [|n k IH]; [reflexivity|]. cbn [filter]. rewrite IH. reflexivity. }
  pose proof (count_ordered (fun _ => true) l) as Hc.
  rewrite !H in Hc. exact Hc.
Qed.

Lemma insert_desc_sorted (n : Notification) (l : list Notification) :
  StronglySorted newer_first l -> StronglySorted newer_first (insert_desc n l).
Proof.
  induction 1 as [|m l Hs IH Hm]; cbn [insert_desc].
  - constructor; constructor.
  - destruct (sorts_before (created_at n) (created_at m)) eqn:E.
    + constructor; [constructor; assumption|].
      constructor; [exact E|].
      eapply Forall_impl; [|exact Hm]. intros x Hx.
      unfold newer_first in *. eapply sorts_before_trans; eassumption.
    + constructor; [exact IH|].
      apply Forall_forall. intros x Hx. apply in_insert_desc in Hx.
      destruct Hx as [-> | Hx].
      * apply sorts_before_total. assumption.
      * rewrite Forall_forall in Hm. apply Hm. assumption.
Qed.

Lemma ordered_sorted (l : list Notification) :
  StronglySorted newer_first (order_by_created_at_desc l).
Proof.
  unfold order_by_created_at_desc. induction l as [|n l IH]; [constructor|].
  cbn [fold_right]. apply insert_desc_sorted. assumption.
Qed.

Lemma in_firstn {A : Type} (k : nat) (l : list A) (x : A) :
  In x (firstn k l) -> In x l.
Proof.
  revert l. induction k as [|k IH]; intros [|y l] H; cbn in H; try contradiction.
  destruct H as [-> | H]; [left; reflexivity | right; apply IH; assumption].
Qed.

Lemma firstn_sorted (k : nat) (l : list Notification) :
  StronglySorted newer_first l -> StronglySorted newer_first (firstn k l).
Proof.
  intros H. revert k. induction H as [|m l Hs IH Hm]; intros [|k]; cbn [firstn];
    try constructor.
  - apply IH.
  - apply Forall_forall. intros x Hx. apply in_firstn in Hx.
    rewrite Forall_forall in Hm. apply Hm. assumption.
Qed.

Lemma filter_filter_length (f g : Notification -> bool) (l : list Notification) :
  List.length (filter g (filter f l))
  = List.length (filter (fun n => f n && g n) l).
Proof.
  induction l as [|n l IH]; [reflexivity|].
  cbn [filter]. destruct (f n); cbn [andb filter];
    [destruct (g n); cbn [List.length]; rewrite IH; reflexivity | exact IH].
Qed.






(** C8 at the failing input. One unread notification, loaded; after the
    first [markAsRead] it is read and the counter is 0; the second call
    raises no error and leaves it read, in the store and in the cache, but
    moves the counter to -1. *)
Theorem markAsRead_twice_moves_counter :
  let w1 := markAsRead (Some 1%N) 0%N None one_unread_loaded in
  let w2 := markAsRead (Some 1%N) 0%N None w1 in
  map status (table w1) = ["read"]
  /\ unreadCount (hook w1) = 0
  /\ map status (table w2) = ["read"]
  /\ map status (notifications (hook w2)) = ["read"]
  /\ error (hook w2) = None
  /\ unreadCount (hook w2) = -1
  /\ hook w2 <> hook w1.
Proof.
  vm_compute. repeat split; discriminate.
Qed.

End NotificationsFacts.

(** ** The edge function's answer to an unknown request type *)
Module McpAgentFacts.
Import McpAgent.

Lemma has_property_rejected (key : string) :
  (key <> "portfolio" /\ key <> "analysis" /\ key <> "chat") ->
  member key object_prototype_functions = false ->
  key <> "__proto__" ->
  has_property key = false.
Proof.
  intros [Hp [Ha Hc]] Hm Hproto. unfold has_property.
  apply String.eqb_neq in Hp, Ha, Hc, Hproto.
  cbn [assoc mockResponses]. rewrite Hp, Ha, Hc, Hm, Hproto. reflexivity.
Qed.

Lemma respond_rejected (corsHeaders : list (string * string))
  (Number : string -> js_number) (req : request) (parsed : json) :
  greater_than (contentLength Number req) maxRequestSize = false ->
  json_body req = Normal parsed ->
  parsed <> JNull ->
  rejected_tag (tag_of parsed) ->
  respond corsHeaders Number req = Throw "Invalid request type".
Proof.
  intros Hsize Hbody Hnull Htag. unfold respond.
  rewrite Hsize, Hbody. cbn [and_then].
  assert (Hd : destructure_type parsed = Normal (tag_of parsed))
    by (destruct parsed; try reflexivity; contradiction).
  rewrite Hd. cbn [and_then].
  destruct (tag_of parsed) as [t|]; [|reflexivity].
  cbn [rejected_tag] in Htag.
  destruct (falsy (Some t)) eqn:Ef; [reflexivity|].
  destruct Htag as [Hf | [key [Hkey [Hout [Hm Hproto]]]]]; [discriminate|].
  rewrite Hkey. cbn [and_then].
  rewrite (has_property_rejected key Hout Hm Hproto). reflexivity.
Qed.

(** C7, as the code has it. A request that is not a pre-flight, whose
    declared length is within [maxRequestSize] and whose body parses to a
    JSON value other than [null] is answered with status 400 and
    [{success: false, error: "Invalid request type"}], without data, when
    its tag is missing, or falsy, or a value of any kind whose property
    key is outside the three request types and names no inherited
    property. *)
Theorem invalid_tag_rejected (corsHeaders : list (string * string))
  (Number : string -> js_number) (req : request) (parsed : json) :
  method req <> "OPTIONS" ->
  greater_than (contentLength Number req) maxRequestSize = false ->
  json_body req = Normal parsed ->
  parsed <> JNull ->
  rejected_tag (tag_of parsed) ->
  handler corsHeaders Number req
  = {| status := 400;
       headers := json_headers corsHeaders;
       payload := invalid_request_type |}.
Proof.
  intros Hm Hsize Hbody Hnull Htag. unfold handler.
  apply String.eqb_neq in Hm. rewrite Hm.
  rewrite (respond_rejected corsHeaders Number req parsed Hsize Hbody Hnull Htag).
  reflexivity.
Qed.

Lemma invalid_tag_rejected_witness :
  handler [] decimal_Number (post (Some "18") (JObject [("type", JString "invalid")]))
  = {| status := 400;
       headers := [("Content-Type", "application/json")];
       payload := invalid_request_type |}
  /\ payload (handler [] decimal_Number (post None (JObject [("type", JNumber 5)])))
     = invalid_request_type.
Proof.
  split.
  - apply (invalid_tag_rejected [] decimal_Number
             (post (Some "18") (JObject [("type", JString "invalid")]))
             (JObject [("type", JString "invalid")])).
    + discriminate.
    + reflexivity.
    + reflexivity.
    + discriminate.
    + right. exists "invalid". cbn. repeat split; discriminate.
  - rewrite (invalid_tag_rejected [] decimal_Number
               (post None (JObject [("type", JNumber 5)]))
               (JObject [("type", JNumber 5)])).
    + reflexivity.
    + discriminate.
    + reflexivity.
    + reflexivity.
    + discriminate.
    + right. exists "5". cbn. repeat split; discriminate.
Defined.

(** Tags of the other kinds, at concrete values: [true], an array and an
    object are rejected the same way. *)
Lemma tags_of_other_kinds_are_rejected :
  map (fun tag => handler [] decimal_Number (post None (JObject [("type", tag)])))
      [JBool true; JArray [JString "a"; JString "b"]; JObject []; JNull;
       JBool false; JNumber 0; JString EmptyString]
  = repeat {| status := 400;
              headers := [("Content-Type", "application/json")];
              payload := invalid_request_type |} 7
  /\ Forall (fun tag => rejected_tag (Some tag))
        [JBool true; JArray [JString "a"; JString "b"]; JObject []; JNull;
         JBool false; JNumber 0; JString EmptyString].
Proof.
  split; [reflexivity|].
  repeat (apply Forall_cons;
          [ first [ left; reflexivity
                  | right; eexists; split; [reflexivity|];
                    cbn; repeat split; discriminate ] | ]).
  apply Forall_nil.
Qed.

(** C7, as stated, fails: a request with an unknown tag that declares a
    body above [maxRequestSize] is answered with another error; so is one
    whose body does not parse, or parses to [null], or whose tag cannot be
    turned into a property key; and a pre-flight is answered [ok]. *)
Lemma oversized_request_reports_its_size :
  let req := post (Some "2000000") (JObject [("type", JString "invalid")]) in
  handler [] decimal_Number req
  = {| status := 400;
       headers := [("Content-Type", "application/json")];
       payload := JsonText (JObject [("success", JBool false);
                                     ("error", JString "Request body too large")]) |}
  /\ payload (handler [] decimal_Number req) <> invalid_request_type
  /\ handler [] decimal_Number
       {| method := "OPTIONS"; content_length := None;
          json_body := Normal (JObject [("type", JString "invalid")]) |}
     = {| status := 200; headers := []; payload := Text "ok" |}
  /\ payload (handler [] decimal_Number
                {| method := "POST"; content_length := None;
                   json_body := Throw "Unexpected end of JSON input" |})
     = JsonText (JObject [("success", JBool false);
                          ("error", JString "Unexpected end of JSON input")])
  /\ payload (handler [] decimal_Number (post None JNull)) <> invalid_request_type
  /\ payload (handler [] decimal_Number
                (post None (JObject [("type", JObject [("toString", JNumber 1)])])))
     = JsonText (JObject [("success", JBool false);
                          ("error",
                           JString "Cannot convert object to primitive value")]).
Proof.
  split; [reflexivity|]. split; [vm_compute; discriminate|].
  split; [reflexivity|]. split; [reflexivity|].
  split; [vm_compute; discriminate | reflexivity].
Qed.

(** A pre-flight request is answered [ok] whatever it carries. *)
Lemma preflight_is_answered_ok (corsHeaders : list (string * string))
  (Number : string -> js_number) (req : request) :
  method req = "OPTIONS" ->
  handler corsHeaders Number req
  = {| status := 200; headers := corsHeaders; payload := Text "ok" |}.
Proof.
  intros H. unfold handler. rewrite H. reflexivity.
Qed.

(** The three request types are served their mock answer. *)
Lemma known_tags_are_served :
  map (fun tag => status (handler [] decimal_Number
                            (post None (JObject [("type", JString tag)]))))
      ["portfolio"; "analysis"; "chat"]
  = [200; 200; 200].
Proof. reflexivity. Qed.

(** [in] also finds inherited properties: the tag [toString] passes the
    check and the answer is an empty body with status 200. *)
Lemma inherited_name_passes_the_check :
  handler [] decimal_Number (post None (JObject [("type", JString "toString")]))
  = {| status := 200;
       headers := [("Content-Type", "application/json")];
       payload := NoBody |}.
Proof. reflexivity. Qed.

End McpAgentFacts.

(** ** The delta monitor's threshold and hysteresis *)
Module PortfolioMonitorFacts.
Import PortfolioMonitor.

Lemma crosses_iff (threshold reference value : Q) :
  crosses threshold reference value = true
  <-> (threshold / 100 <= Qabs (pct_change reference value))%Q.
Proof. unfold crosses. apply Qle_bool_iff. Qed.

Lemma monitor_alerts_iff (threshold : Q) (st : hysteresis)
  (previous current : PortfolioSnapshot) :
  (alert_due threshold st previous current ->
   fst (monitor threshold st previous current)
   = [{| appended_owner := owner current;
         appended_type := "portfolio_change";
         appended_value := total_value current |}])
  /\ (~ alert_due threshold st previous current ->
      fst (monitor threshold st previous current) = []).
Proof.
  unfold alert_due, monitor, outside_band.
  destruct (crosses threshold (total_value previous) (total_value current)) eqn:Ec;
    cbn [andb].
  - apply crosses_iff in Ec.
    destruct (last_alerted st (owner current, account_ref current)) as [reference|].
    + destruct (crosses threshold reference (total_value current)) eqn:Eb.
      * split; [reflexivity|]. apply crosses_iff in Eb. intros H. exfalso. auto.
      * split; [|reflexivity]. intros [_ H]. apply crosses_iff in H.
        rewrite H in Eb. discriminate.
    + split; [reflexivity|]. intros H. exfalso. auto.
  - split; [|reflexivity]. intros [H _]. apply crosses_iff in H.
    rewrite H in Ec. discriminate.
Qed.

Lemma same_account_eq (a b : string * string) :
  same_account a b = true -> a = b.
Proof.
  destruct a as [a1 a2], b as [b1 b2]. unfold same_account. cbn [fst snd].
  intros H. apply andb_true_iff in H. destruct H as [H1 H2].
  apply String.eqb_eq in H1, H2. subst. reflexivity.
Qed.

Lemma last_alerted_remember (st : hysteresis) (key : string * string) (v : Q) :
  last_alerted (remember st key v) key = Some v.
Proof.
  unfold remember. cbn [last_alerted]. unfold same_account.
  rewrite !String.eqb_refl. reflexivity.
Qed.

Lemma last_alerted_remember_other (st : hysteresis) (key other : string * string)
  (v : Q) :
  same_account other key = false ->
  last_alerted (remember st key v) other = last_alerted st other.
Proof.
  intros Hne. unfold remember. cbn [last_alerted]. rewrite Hne.
  induction st as [|[k w] st IH]; [reflexivity|].
  cbn [filter fst last_alerted].
  destruct (same_account key k) eqn:Ek; cbn [negb].
  - apply same_account_eq in Ek. subst k. rewrite Hne. exact IH.
  - cbn [last_alerted]. destruct (same_account other k); [reflexivity | exact IH].
Qed.

(** C6. The monitor appends one [portfolio_change] notification exactly
    when the relative change between the two snapshots reaches the
    threshold and the current value is past the threshold relative to the
    last-alerted value of the account; it then records the current value
    as the account's last-alerted value, leaving the other accounts'
    values alone; otherwise it appends nothing and keeps its state.  With
    the configured 5 percent, 100000 then 106000 appends one notification
    and records 106000, and the following 102000 lies within the band of
    106000 and appends none; after 106000 and 103000, the value 108500 is
    a step of more than 5 percent and still appends none, being within 5
    percent of 106000. *)
Theorem monitor_alerts_with_hysteresis :
  (forall threshold st previous current,
      let key := (owner current, account_ref current) in
      (alert_due threshold st previous current ->
       fst (monitor threshold st previous current)
       = [{| appended_owner := owner current;
             appended_type := "portfolio_change";
             appended_value := total_value current |}]
       /\ last_alerted (snd (monitor threshold st previous current)) key
          = Some (total_value current)
       /\ forall other,
            same_account other key = false ->
            last_alerted (snd (monitor threshold st previous current)) other
            = last_alerted st other)
      /\ (~ alert_due threshold st previous current ->
          monitor threshold st previous current = ([], st)))
  /\ monitor_all change_threshold [] (snapshot_of 0 100000)
       [snapshot_of 1 106000; snapshot_of 2 102000]
     = [[{| appended_owner := "u1";
            appended_type := "portfolio_change";
            appended_value := inject_Z 106000 |}];
        []]
  /\ (let alerted :=
         snd (monitor change_threshold [] (snapshot_of 0 100000)
                (snapshot_of 1 106000)) in
      last_alerted alerted ("u1", "acc") = Some (inject_Z 106000)
      /\ outside_band change_threshold alerted ("u1", "acc") (inject_Z 102000)
         = false)
  /\ (crosses change_threshold (inject_Z 103000) (inject_Z 108500) = true
      /\ monitor_all change_threshold [] (snapshot_of 0 100000)
           [snapshot_of 1 106000; snapshot_of 2 103000; snapshot_of 3 108500]
         = [[{| appended_owner := "u1";
                appended_type := "portfolio_change";
                appended_value := inject_Z 106000 |}];
            []; []]).
Proof.
  split; [|split; [reflexivity | split; [split; reflexivity | split; reflexivity]]].
  intros threshold st previous current key.
  destruct (monitor_alerts_iff threshold st previous current) as [Hyes Hno].
  split.
  - intros Hdue. split; [apply Hyes; assumption|].
    assert (Hm : monitor threshold st previous current
                 = ([{| appended_owner := owner current;
                        appended_type := "portfolio_change";
                        appended_value := total_value current |}],
                    remember st key (total_value current))).
    { specialize (Hyes Hdue). unfold monitor in *. fold key in Hyes |- *.
      destruct (crosses threshold (total_value previous) (total_value current)
                && outside_band threshold st key (total_value current));
        [reflexivity | discriminate Hyes]. }
    rewrite Hm. cbn [snd]. split.
    + apply last_alerted_remember.
    + intros other Hother. apply last_alerted_remember_other. assumption.
  - intros Hdue. specialize (Hno Hdue). unfold monitor in *. fold key in Hno |- *.
    destruct (crosses threshold (total_value previous) (total_value current)
              && outside_band threshold st key (total_value current));
      [discriminate Hno | reflexivity].
Qed.

(** The band at work: after the alert at 106000, a return to 108500
    from 103000 is a 5.3 percent step but lies within 5 percent of the
    last-alerted value, and appends nothing. *)
Lemma hysteresis_suppresses_noise :
  map (@List.length Appended)
      (monitor_all change_threshold [] (snapshot_of 0 100000)
         [snapshot_of 1 106000; snapshot_of 2 103000; snapshot_of 3 108500])
  = [1%nat; 0%nat; 0%nat].
Proof. reflexivity. Qed.

End PortfolioMonitorFacts.

(** ** Further operations on connections *)
Module ConnectionOpsFacts.
Import Bytea Connections ByteaFacts ConnectionsFacts LifecycleFacts ConnectionOps.

Lemma find_by_id_unique (rows : list user_connection) (r : user_connection) :
  NoDup (map id rows) -> In r rows ->
  find (fun x => N.eqb (id x) (id r)) rows = Some r.
Proof.
  induction rows as [|x rows IH]; intros Hnd Hin; [destruct Hin|].
  cbn [map] in Hnd. apply NoDup_cons_iff in Hnd. destruct Hnd as [Hx Hnd].
  cbn [find]. destruct Hin as [-> | Hin].
  - rewrite N.eqb_refl. reflexivity.
  - destruct (N.eqb (id x) (id r)) eqn:E.
    + apply N.eqb_eq in E. exfalso. apply Hx. rewrite E.
      apply in_map. assumption.
    + apply IH; assumption.
Qed.

Lemma find_absent {A : Type} (p : A -> bool) (l : list A) :
  (forall x, In x l -> p x = false) -> find p l = None.
Proof.
  induction l as [|x l IH]; intros H; [reflexivity|].
  cbn [find]. rewrite (H x (or_introl eq_refl)).
  apply IH. intros y Hy. apply H. right. assumption.
Qed.

Lemma find_app_last {A : Type} (p : A -> bool) (l : list A) (x : A) :
  (forall y, In y l -> p y = false) -> p x = true ->
  find p (l ++ [x]) = Some x.
Proof.
  induction l as [|y l IH]; intros H Hx; cbn [app find].
  - rewrite Hx. reflexivity.
  - rewrite (H y (or_introl eq_refl)).
    apply IH; [|assumption]. intros z Hz. apply H. right. assumption.
Qed.

Lemma NoDup_snoc {A : Type} (l : list A) (x : A) :
  NoDup l -> ~ In x l -> NoDup (l ++ [x]).
Proof.
  intros Hl Hx. apply NoDup_app; [assumption | |].
  - constructor; [intros [] | constructor].
  - intros a Ha [<- | []]. contradiction.
Qed.

Lemma filtered_keys_distinct {K : Type} (key : Connections.user_connection -> K)
  (keep : Connections.user_connection -> bool)
  (rows : list Connections.user_connection) :
  NoDup (map key rows) -> NoDup (map key (filter keep rows)).
Proof.
  intros Hnd. induction rows as [|r rows IH]; [constructor|].
  cbn [map] in Hnd. apply NoDup_cons_iff in Hnd. destruct Hnd as [Hr Hrows].
  cbn [filter]. destruct (keep r); [|apply IH; assumption].
  cbn [map]. constructor; [|apply IH; assumption].
  intros Hin. apply Hr. apply in_map_iff in Hin.
  destruct Hin as [y [Hy Hin]]. apply filter_In in Hin.
  rewrite <- Hy. apply in_map. tauto.
Qed.

Lemma Forall2_map_eq {A B : Type} (f : A -> B) (l l' : list A) :
  Forall2 (fun a b => f b = f a) l l' -> map f l' = map f l.
Proof.
  induction 1 as [|a b l l' Hab _ IH]; [reflexivity|].
  cbn [map]. rewrite Hab, IH. reflexivity.
Qed.

Lemma update_where_inv (p : user_connection -> bool)
  (f : user_connection -> result user_connection)
  (rows rows' : list user_connection) :
  update_where p f rows = Ok rows' ->
  Forall2 (fun r r' => if p r then f r = Ok r' else r' = r) rows rows'.
Proof.
  revert rows'. induction rows as [|r rows IH]; intros rows' H; cbn in H.
  - injection H as <-. constructor.
  - destruct (p r) eqn:Ep.
    + destruct (f r) as [r1|e] eqn:Ef; cbn in H; [|discriminate].
      destruct (update_where p f rows) as [rest|e]; cbn in H; [|discriminate].
      injection H as <-. constructor; [rewrite Ep; assumption | apply IH; reflexivity].
    + cbn in H.
      destruct (update_where p f rows) as [rest|e]; cbn in H; [|discriminate].
      injection H as <-. constructor; [rewrite Ep; reflexivity | apply IH; reflexivity].
Qed.

Lemma due_ids_related (us : list UUID) (ss : list (string * TEXT))
  (rows rows' : list user_connection) (now : timestamptz) :
  Forall2 same_but_token rows rows' ->
  map id (get_active_connections (mk_database us rows' ss) now)
  = map id (get_active_connections (mk_database us rows ss) now).
Proof.
  unfold get_active_connections. cbn [user_connections].
  induction 1 as [|r r' rows rows' Hr _ IH]; [reflexivity|].
  destruct Hr as [Hid [_ [_ [Ha [_ Hl]]]]].
  cbn [filter]. rewrite Ha, Hl.
  destruct (is_active r) as [[|]|]; try exact IH.
  destruct (last_check_at r) as [t|].
  - destruct (t <? now - five_minutes); [|exact IH].
    cbn [map]. rewrite Hid, IH. reflexivity.
  - cbn [map]. rewrite Hid, IH. reflexivity.
Qed.

Lemma get_broker_token_absent (pgp_sym_decrypt : bytea -> TEXT -> option TEXT)
  (db : database) (cid : UUID) :
  key_configured db ->
  (forall r, In r (user_connections db) -> id r <> cid) ->
  get_broker_token pgp_sym_decrypt db cid = Ok None.
Proof.
  intros [k Hk] Hno. unfold get_broker_token. fold encryption_key.
  rewrite Hk. cbn [bind]. rewrite find_absent; [reflexivity|].
  intros x Hx. apply N.eqb_neq. apply Hno. assumption.
Qed.

Section OpsFacts.

Variable pgp_sym_encrypt : TEXT -> TEXT -> N -> bytea.
Variable pgp_sym_decrypt : bytea -> TEXT -> option TEXT.
Variable timestamptz_out : timestamptz -> string.
Variable current_user : string.

Hypothesis pgp_roundtrip : forall data psw entropy,
  pgp_sym_decrypt (pgp_sym_encrypt data psw entropy) psw = Some data.

Local Abbreviation create :=
  (create_user_connection pgp_sym_encrypt timestamptz_out current_user).
Local Abbreviation update :=
  (update_user_connection_token pgp_sym_encrypt timestamptz_out).

Lemma create_inv (db db' : database) now uuid entropy u b t :
  create db now uuid entropy u b t = Ok (uuid, db') ->
  exists k,
    current_setting db encryption_key = Ok k
    /\ In u (auth_users db)
    /\ (forall r, In r (user_connections db) -> id r <> uuid)
    /\ ~ pair_exists db u b
    /\ db' = mk_database (auth_users db)
               (user_connections db ++
                [{| id := uuid; user_id := u; broker_type := b;
                    encrypted_token := byteaout (pgp_sym_encrypt t k entropy);
                    is_active := Some true; created_at := Some now;
                    last_check_at := None;
                    metadata := Some (JObject [("created_by", JString current_user);
                                               ("created_at",
                                                to_jsonb timestamptz_out now)]) |}])
               (settings db).
Proof.
  unfold create_user_connection.
  destruct (user_exists db u) eqn:Hu; cbn [negb]; [|discriminate].
  destruct (encrypt_token pgp_sym_encrypt db entropy t u) as [tok|e] eqn:He;
    cbn [bind]; [|discriminate].
  apply encrypt_token_inv in He. destruct He as [k [Hk [_ ->]]].
  unfold insert_user_connection. cbn [id user_id broker_type].
  destruct (existsb (fun r => N.eqb (id r) uuid) (user_connections db)) eqn:Epk;
    [discriminate|].
  destruct (existsb (fun r => N.eqb (user_id r) u && String.eqb (broker_type r) b)
                    (user_connections db)) eqn:Epair; [discriminate|].
  rewrite Hu. cbn [negb bind]. intros H. injection H as <-.
  exists k. split; [exact Hk|]. split; [apply user_exists_iff; assumption|].
  split; [|split; [|reflexivity]].
  - intros r Hr. apply N.eqb_neq.
    exact (proj1 (existsb_false_iff _ _) Epk r Hr).
  - intros Hp. apply pair_exists_iff in Hp. rewrite Hp in Epair. discriminate.
Qed.

Lemma update_rows_related (db db' : database) now entropy cid t :
  update db now entropy cid t = Ok db' ->
  auth_users db' = auth_users db
  /\ settings db' = settings db
  /\ Forall2 same_but_token (user_connections db) (user_connections db').
Proof.
  unfold update_user_connection_token.
  destruct (find _ (user_connections db)) as [found|]; [|discriminate].
  destruct (update_where _ _ (user_connections db)) as [rows|e] eqn:Eu;
    cbn [bind]; [|discriminate].
  intros H. injection H as <-. cbn.
  split; [reflexivity|]. split; [reflexivity|].
  apply update_where_inv in Eu.
  eapply Forall2_impl; [|exact Eu].
  intros r r' Hr. cbn beta in Hr.
  destruct (N.eqb (id r) cid).
  - destruct (encrypt_token pgp_sym_encrypt db entropy t (user_id found)) as [tok|e];
      cbn [bind] in Hr; [|discriminate].
    destruct (jsonb_set_key (metadata r) "updated_at" (to_jsonb timestamptz_out now))
      as [md|e]; cbn [bind] in Hr; [|discriminate].
    injection Hr as <-. repeat split.
  - subst r'. repeat split.
Qed.

(** X1. The token of a connection just created can be fetched by its
    id, and is the secret the connection was created with. *)
Theorem get_broker_token_after_create (db db' : database) now uuid entropy u b t :
  create db now uuid entropy u b t = Ok (uuid, db') ->
  get_broker_token pgp_sym_decrypt db' uuid = Ok (Some t).
Proof.
  intros H. destruct (create_inv db db' now uuid entropy u b t H)
    as [k [Hk [_ [Hid [_ ->]]]]].
  unfold get_broker_token. fold encryption_key.
  replace (current_setting _ encryption_key) with (Ok k : result TEXT)
    by (symmetry; exact Hk).
  cbn [bind user_connections].
  rewrite find_app_last.
  - cbn [encrypted_token]. rewrite byteain_byteaout. cbn [bind].
    rewrite pgp_roundtrip. reflexivity.
  - intros y Hy. apply N.eqb_neq. apply Hid. assumption.
  - cbn [id]. apply N.eqb_refl.
Qed.

(** X2. [get_broker_token] checks no owner: for a stored connection it
    returns, to whoever calls it, what [decrypt_token] returns to the
    connection's owner. *)
Theorem get_broker_token_as_owner (db : database) (r : user_connection) :
  NoDup (map id (user_connections db)) ->
  In r (user_connections db) ->
  get_broker_token pgp_sym_decrypt db (id r)
  = (v_token <- decrypt_token pgp_sym_decrypt db (encrypted_token r) (user_id r) ;;
     Ok (Some v_token)).
Proof.
  intros Hnd Hin. unfold get_broker_token, decrypt_token.
  assert (Ho : owns_token db (user_id r) (encrypted_token r) = true).
  { apply owns_token_iff. exists r. auto. }
  rewrite Ho. cbn [negb].
  destruct (current_setting db "app.encryption_key") as [k|e]; cbn [bind];
    [|reflexivity].
  rewrite (find_by_id_unique _ r Hnd Hin).
  destruct (byteain (encrypted_token r)) as [bs|e]; cbn [bind]; [|reflexivity].
  destruct (pgp_sym_decrypt bs k); reflexivity.
Qed.

(** X3. For an id that no row carries, [get_broker_token] returns null
    and raises nothing, while [update_user_connection_token] raises
    [Connection not found]. *)
Theorem unknown_connection_id (db : database) (cid : UUID) now entropy t :
  key_configured db ->
  (forall r, In r (user_connections db) -> id r <> cid) ->
  get_broker_token pgp_sym_decrypt db cid = Ok None
  /\ update db now entropy cid t = Err ConnectionNotFound.
Proof.
  intros Hkey Hno. split.
  - apply get_broker_token_absent; assumption.
  - unfold update_user_connection_token. rewrite find_absent; [reflexivity|].
    intros x Hx. apply N.eqb_neq. apply Hno. assumption.
Qed.

(** X4. The primary key, the uniqueness of (user_id, broker_type) and
    the reference to [auth.users] survive every lifecycle operation. *)
Theorem keys_hold_preserved (db : database) :
  keys_hold db ->
  (forall now uuid entropy u b t db',
      create db now uuid entropy u b t = Ok (uuid, db') -> keys_hold db')
  /\ (forall now entropy cid t db',
         update db now entropy cid t = Ok db' -> keys_hold db')
  /\ (forall auth_uid cid isActive,
         keys_hold (toggleConnectionStatus db auth_uid cid isActive))
  /\ (forall auth_uid cid, keys_hold (deleteConnection db auth_uid cid)).
Proof.
  intros [Hid [Hpair Hfk]]. split; [|split; [|split]].
  - intros now uuid entropy u b t db' H.
    destruct (create_inv db db' now uuid entropy u b t H)
      as [k [_ [Hu [Hfresh [Hfree ->]]]]].
    unfold keys_hold, references_users. cbn [user_connections auth_users].
    rewrite !map_app. cbn [map id user_id broker_type].
    split; [|split].
    + apply NoDup_snoc; [assumption|]. intros Hin.
      apply in_map_iff in Hin. destruct Hin as [r [Hr Hin]].
      exact (Hfresh r Hin Hr).
    + apply NoDup_snoc; [assumption|]. intros Hin.
      apply in_map_iff in Hin. destruct Hin as [r [Hr Hin]].
      injection Hr as Hu' Hb'. apply Hfree. exists r. auto.
    + intros row Hrow. apply in_app_or in Hrow.
      destruct Hrow as [Hrow | [<- | []]]; [apply Hfk; assumption | exact Hu].
  - intros now entropy cid t db' H.
    destruct (update_rows_related db db' now entropy cid t H) as [Hus [_ Hrel]].
    unfold keys_hold.
    assert (Hids : map id (user_connections db') = map id (user_connections db)).
    { apply Forall2_map_eq. eapply Forall2_impl; [|exact Hrel].
      intros a c Hac. apply Hac. }
    assert (Hpairs : map (fun r => (user_id r, broker_type r)) (user_connections db')
                     = map (fun r => (user_id r, broker_type r)) (user_connections db)).
    { apply Forall2_map_eq. eapply Forall2_impl; [|exact Hrel].
      intros a c [_ [Hu [Hb _]]]. cbn beta. rewrite Hu, Hb. reflexivity. }
    rewrite Hids, Hpairs. split; [assumption|]. split; [assumption|].
    unfold references_users. rewrite Hus.
    assert (Husers : map user_id (user_connections db')
                     = map user_id (user_connections db)).
    { apply Forall2_map_eq. eapply Forall2_impl; [|exact Hrel].
      intros a c Hac. apply Hac. }
    intros row Hrow. apply (in_map user_id) in Hrow. rewrite Husers in Hrow.
    apply in_map_iff in Hrow. destruct Hrow as [r0 [<- Hr0]]. apply Hfk. assumption.
  - intros auth_uid cid isActive.
    unfold keys_hold, references_users, toggleConnectionStatus.
    cbn [user_connections auth_users].
    rewrite !map_map.
    rewrite (map_ext _ id)
      by (intros r; destruct (own_row auth_uid r && N.eqb (id r) cid); reflexivity).
    rewrite (map_ext _ (fun r => (user_id r, broker_type r)))
      by (intros r; destruct (own_row auth_uid r && N.eqb (id r) cid); reflexivity).
    split; [assumption|]. split; [assumption|].
    intros row Hrow. apply in_map_iff in Hrow. destruct Hrow as [r [<- Hr]].
    destruct (own_row auth_uid r && N.eqb (id r) cid);
      [change (In (user_id r) (auth_users db))|]; apply Hfk; assumption.
  - intros auth_uid cid.
    unfold keys_hold, references_users, deleteConnection.
    cbn [user_connections auth_users].
    split; [apply filtered_keys_distinct; assumption|].
    split; [apply filtered_keys_distinct; assumption|].
    intros row Hrow. apply filter_In in Hrow. apply Hfk. tauto.
Qed.

(** X5. A connection just created is active and never checked: it is in
    the due-set at any time. *)
Theorem created_connection_is_due (db db' : database) now uuid entropy u b t :
  create db now uuid entropy u b t = Ok (uuid, db') ->
  forall later, exists row,
    In row (get_active_connections db' later)
    /\ id row = uuid /\ user_id row = u /\ broker_type row = b.
Proof.
  intros H later. destruct (create_inv db db' now uuid entropy u b t H)
    as [k [_ [_ [_ [_ ->]]]]].
  eexists. split.
  - apply in_get_active_connections. split.
    + cbn [user_connections]. apply in_or_app. right. left. reflexivity.
    + split; [reflexivity | left; reflexivity].
  - repeat split.
Qed.

(** X6. Replacing a token moves no connection into or out of the
    due-set: is_active and last_check_at stay as they were. *)
Theorem update_keeps_due_set (db db' : database) now entropy cid t :
  update db now entropy cid t = Ok db' ->
  forall at_time,
    map id (get_active_connections db' at_time)
    = map id (get_active_connections db at_time).
Proof.
  intros H at_time.
  destruct (update_rows_related db db' now entropy cid t H) as [Hus [Hss Hrel]].
  destruct db as [us rows ss], db' as [us' rows' ss']. cbn in Hus, Hss, Hrel.
  subst us' ss'. apply due_ids_related. assumption.
Qed.

End OpsFacts.

Lemma NoDup_map_inj {A B : Type} (f : A -> B) (l : list A) (a b : A) :
  NoDup (map f l) -> In a l -> In b l -> f a = f b -> a = b.
Proof.
  induction l as [|x l IH]; intros Hnd Ha Hb Hf; [destruct Ha|].
  cbn [map] in Hnd. apply NoDup_cons_iff in Hnd. destruct Hnd as [Hx Hnd].
  destruct Ha as [-> | Ha], Hb as [-> | Hb].
  - reflexivity.
  - exfalso. apply Hx. rewrite Hf. apply in_map. assumption.
  - exfalso. apply Hx. rewrite <- Hf. apply in_map. assumption.
  - apply IH; assumption.
Qed.

Lemma map_fixed {A : Type} (f : A -> A) (l : list A) :
  (forall x, In x l -> f x = x) -> map f l = l.
Proof.
  induction l as [|x l IH]; intros H; [reflexivity|].
  cbn [map]. rewrite (H x (or_introl eq_refl)), IH; [reflexivity|].
  intros y Hy. apply H. right. assumption.
Qed.

Lemma filter_all {A : Type} (p : A -> bool) (l : list A) :
  (forall x, In x l -> p x = true) -> filter p l = l.
Proof.
  induction l as [|x l IH]; intros H; [reflexivity|].
  cbn [filter]. rewrite (H x (or_introl eq_refl)), IH; [reflexivity|].
  intros y Hy. apply H. right. assumption.
Qed.

(** X7. Row-level security: a session that does not own the connection
    with the given id (or is not signed in) changes nothing by toggling
    or deleting it. *)
Theorem foreign_connection_is_untouched
  (db : database) (auth_uid : option UUID) (cid : UUID) (isActive : bool) :
  (forall r, In r (user_connections db) -> id r = cid -> own_row auth_uid r = false) ->
  toggleConnectionStatus db auth_uid cid isActive = db
  /\ deleteConnection db auth_uid cid = db.
Proof.
  intros H.
  assert (Hsel : forall r, In r (user_connections db) ->
                           own_row auth_uid r && N.eqb (id r) cid = false).
  { intros r Hr. destruct (N.eqb (id r) cid) eqn:E.
    - apply N.eqb_eq in E. rewrite (H r Hr E). reflexivity.
    - apply andb_false_r. }
  unfold toggleConnectionStatus, deleteConnection. destruct db as [us rows ss].
  cbn [auth_users user_connections settings] in *. split; f_equal.
  - apply map_fixed. intros r Hr. rewrite (Hsel r Hr). reflexivity.
  - apply filter_all. intros r Hr. rewrite (Hsel r Hr). reflexivity.
Qed.

(** X8. After its owner deactivates a connection the due-set is the
    former due-set without that connection, at any time. *)
Theorem deactivated_connection_is_never_due
  (db : database) (u : UUID) (cid : UUID) (now : timestamptz) (r : user_connection) :
  (forall x, In x (user_connections db) -> id x = cid -> user_id x = u) ->
  (In r (get_active_connections (toggleConnectionStatus db (Some u) cid false) now)
   <-> In r (get_active_connections db now) /\ id r <> cid).
Proof.
  intros Hown. rewrite !in_get_active_connections.
  unfold toggleConnectionStatus. cbn [user_connections]. rewrite in_map_iff.
  split.
  - intros [[x [Hx Hin]] Hdue].
    destruct (own_row (Some u) x && N.eqb (id x) cid) eqn:E.
    + subst r. destruct Hdue as [Ha _]. discriminate.
    + subst r. split; [split; assumption|].
      intros Hid. apply andb_false_iff in E. destruct E as [E | E].
      * cbn in E. apply N.eqb_neq in E. apply E. symmetry. apply Hown; assumption.
      * apply N.eqb_neq in E. contradiction.
  - intros [[Hin Hdue] Hid]. split; [|assumption].
    exists r. split; [|assumption].
    apply N.eqb_neq in Hid. rewrite Hid, andb_false_r. reflexivity.
Qed.

Section DeleteFacts.

Variable pgp_sym_encrypt : TEXT -> TEXT -> N -> bytea.
Variable pgp_sym_decrypt : bytea -> TEXT -> option TEXT.
Variable timestamptz_out : timestamptz -> string.
Variable current_user : string.

(** X9. After the owner deletes a connection no row carries its id, its
    token can no longer be fetched, and, the key being not empty, a
    connection for the same owner and broker can be created again. *)
Theorem deleted_connection_is_gone
  (db : database) (r0 : user_connection) now uuid entropy t :
  keys_hold db -> key_configured db -> In r0 (user_connections db) ->
  let db' := deleteConnection db (Some (user_id r0)) (id r0) in
  (forall r, In r (user_connections db') -> id r <> id r0)
  /\ get_broker_token pgp_sym_decrypt db' (id r0) = Ok None
  /\ (key_usable db ->
      (forall r, In r (user_connections db') -> id r <> uuid) ->
      exists db'',
        create_user_connection pgp_sym_encrypt timestamptz_out current_user
          db' now uuid entropy (user_id r0) (broker_type r0) t = Ok (uuid, db'')).
Proof.
  intros [Hid [Hpair Hfk]] Hkey Hin db'.
  assert (Hsel : own_row (Some (user_id r0)) r0 && N.eqb (id r0) (id r0) = true)
    by (cbn; rewrite !N.eqb_refl; reflexivity).
  assert (Hgone : forall r, In r (user_connections db') -> r <> r0).
  { intros r Hr ->. unfold db', deleteConnection in Hr. cbn [user_connections] in Hr.
    apply filter_In in Hr. destruct Hr as [_ Hr]. rewrite Hsel in Hr. discriminate. }
  assert (Hsub : forall r, In r (user_connections db') -> In r (user_connections db)).
  { intros r Hr. unfold db', deleteConnection in Hr. cbn [user_connections] in Hr.
    apply filter_In in Hr. tauto. }
  assert (Hids : forall r, In r (user_connections db') -> id r <> id r0).
  { intros r Hr Heq. apply (Hgone r Hr).
    apply (NoDup_map_inj id (user_connections db)); auto. }
  split; [exact Hids|]. split.
  - apply get_broker_token_absent; assumption.
  - intros Husable Hfresh.
    destruct (create_fresh_pair pgp_sym_encrypt timestamptz_out current_user
                db' now uuid entropy (user_id r0) (broker_type r0) t)
      as [db'' [Hc _]].
    + exact Husable.
    + apply Hfk. assumption.
    + intros [r [Hr [Hu Hb]]]. apply (Hgone r Hr).
      apply (NoDup_map_inj (fun x => (user_id x, broker_type x)) (user_connections db));
        auto. cbn beta. rewrite Hu, Hb. reflexivity.
    + exact Hfresh.
    + exists db''. exact Hc.
Qed.

End DeleteFacts.

Lemma update_where_first_error (p : user_connection -> bool)
  (f : user_connection -> result user_connection)
  (rows : list user_connection) (e : pg_error) :
  (exists r, In r rows /\ p r = true) ->
  (forall r, p r = true -> f r = Err e) ->
  update_where p f rows = Err e.
Proof.
  intros [r0 [Hin Hp]] Hf. induction rows as [|r rows IH]; [destruct Hin|].
  cbn [update_where]. destruct (p r) eqn:E.
  - rewrite (Hf r E). reflexivity.
  - cbn [bind]. destruct Hin as [-> | Hin]; [congruence|].
    rewrite (IH Hin). reflexivity.
Qed.

Section MissingKey.

Variable pgp_sym_encrypt : TEXT -> TEXT -> N -> bytea.
Variable pgp_sym_decrypt : bytea -> TEXT -> option TEXT.
Variable timestamptz_out : timestamptz -> string.
Variable current_user : string.

(** X22. While [app.encryption_key] is not set, nothing is encrypted,
    stored or read: encrypting, creating a connection for a known user,
    updating the token of an existing connection, fetching a token by id
    and decrypting for the owner all fail on the missing setting. *)
Theorem missing_key_stops_the_vault (db : database) :
  assoc encryption_key (settings db) = None ->
  let missing := undefined_object encryption_key in
  (forall entropy t u,
      encrypt_token pgp_sym_encrypt db entropy t u = Err missing)
  /\ (forall now uuid entropy u b t,
         In u (auth_users db) ->
         create_user_connection pgp_sym_encrypt timestamptz_out current_user
           db now uuid entropy u b t = Err missing)
  /\ (forall now entropy cid t,
         (exists r, In r (user_connections db) /\ id r = cid) ->
         update_user_connection_token pgp_sym_encrypt timestamptz_out
           db now entropy cid t = Err missing)
  /\ (forall cid, get_broker_token pgp_sym_decrypt db cid = Err missing)
  /\ (forall c u, stored_for db u c ->
                  decrypt_token pgp_sym_decrypt db c u = Err missing).
Proof.
  intros Hk missing.
  assert (Hs : current_setting db encryption_key = Err missing)
    by (unfold current_setting; rewrite Hk; reflexivity).
  assert (He : forall entropy t u,
             encrypt_token pgp_sym_encrypt db entropy t u = Err missing).
  { intros. unfold encrypt_token. fold encryption_key. rewrite Hs. reflexivity. }
  split; [exact He|]. split; [|split; [|split]].
  - intros now uuid entropy u b t Hu. unfold create_user_connection.
    apply user_exists_iff in Hu. rewrite Hu. cbn [negb]. rewrite He. reflexivity.
  - intros now entropy cid t [r [Hin Hid]]. unfold update_user_connection_token.
    destruct (find _ (user_connections db)) as [found|] eqn:Ef.
    2:{ apply (find_none _ _ Ef) in Hin. apply N.eqb_neq in Hin. contradiction. }
    rewrite (update_where_first_error _ _ _ missing); [reflexivity | |].
    + exists r. split; [assumption | apply N.eqb_eq; assumption].
    + intros x _. rewrite He. reflexivity.
  - intros cid. unfold get_broker_token. fold encryption_key. rewrite Hs. reflexivity.
  - intros c u Hst. unfold decrypt_token. apply owns_token_iff in Hst.
    rewrite Hst. cbn [negb]. fold encryption_key. rewrite Hs. reflexivity.
Qed.

End MissingKey.

End ConnectionOpsFacts.

(** ** The cached list of [useUserConnections] under change events *)
Module UserConnectionsHookFacts.
Import UserConnectionsHook LifecycleFacts.

Lemma strict_equal_eq (a b : option json) : strict_equal a b = true -> a = b.
Proof.
  destruct a as [[| x | x | x | x | x]|], b as [[| y | y | y | y | y]|];
    cbn; intros H; try discriminate; try reflexivity.
  - apply Bool.eqb_prop in H. subst. reflexivity.
  - apply Z.eqb_eq in H. subst. reflexivity.
  - apply String.eqb_eq in H. subst. reflexivity.
Qed.

Lemma assoc_absent {A : Type} (k : string) (l : list (string * A)) :
  ~ In k (map fst l) -> assoc k l = None.
Proof.
  induction l as [|[k' v] l IH]; intros H; [reflexivity|].
  cbn [assoc]. destruct (String.eqb k k') eqn:E.
  - apply String.eqb_eq in E. exfalso. apply H. left. symmetry. exact E.
  - apply IH. intros Hin. apply H. right. assumption.
Qed.

Lemma assoc_set_present {A : Type} (k : string) (v : A) (l : list (string * A)) :
  assoc k l = Some v -> assoc_set k v l = l.
Proof.
  induction l as [|[k' v'] l IH]; intros H; [discriminate|].
  cbn [assoc] in H. cbn [assoc_set]. destruct (String.eqb k k').
  - injection H as ->. reflexivity.
  - rewrite IH; [reflexivity | assumption].
Qed.

(** A property of [{ ...a, ...b }] is that of [b] when [b] has it, and
    that of [a] otherwise. *)
Lemma assoc_spread (a b : js_object) (k : string) :
  distinct_keys b ->
  assoc k (spread a b)
  = match assoc k b with Some v => Some v | None => assoc k a end.
Proof.
  unfold spread, distinct_keys. revert a.
  induction b as [|[k1 v1] b IH]; intros a Hnd; [reflexivity|].
  cbn [map fst] in Hnd. apply NoDup_cons_iff in Hnd. destruct Hnd as [Hk1 Hnd].
  cbn [fold_left fst snd]. rewrite IH by assumption.
  cbn [assoc]. destruct (String.eqb k k1) eqn:E.
  - apply String.eqb_eq in E. subst k1.
    rewrite (assoc_absent k b Hk1). apply assoc_set_same.
  - destruct (assoc k b); [reflexivity|].
    apply assoc_set_other. intros ->. rewrite String.eqb_refl in E. discriminate.
Qed.

Lemma spread_again (a b : js_object) :
  distinct_keys b -> spread (spread a b) b = spread a b.
Proof.
  intros Hnd.
  assert (H : forall c : js_object,
             (forall k v, In (k, v) c -> assoc k (spread a b) = Some v) ->
             fold_left (fun acc kv => assoc_set (fst kv) (snd kv) acc) c (spread a b)
             = spread a b).
  { induction c as [|[k v] c IHc]; intros Hc; [reflexivity|].
    cbn [fold_left fst snd].
    rewrite assoc_set_present by (apply Hc; left; reflexivity).
    apply IHc. intros k' v' Hin. apply Hc. right. assumption. }
  apply H. intros k v Hin. rewrite assoc_spread by assumption.
  assert (Hk : assoc k b = Some v).
  { clear H. unfold distinct_keys in Hnd.
    induction b as [|[k1 v1] b IH]; [destruct Hin|].
    cbn [map fst] in Hnd. apply NoDup_cons_iff in Hnd. destruct Hnd as [Hk1 Hnd].
    cbn [assoc]. destruct Hin as [Heq | Hin].
    - injection Heq as -> ->. rewrite String.eqb_refl. reflexivity.
    - destruct (String.eqb k k1) eqn:E; [|apply IH; assumption].
      apply String.eqb_eq in E. subst k1. exfalso. apply Hk1.
      change k with (fst (k, v)). apply in_map. assumption. }
  rewrite Hk. reflexivity.
Qed.

Lemma updated_id (conn new : js_object) :
  distinct_keys new ->
  strict_equal (assoc "id" conn) (assoc "id" new) = true ->
  assoc "id" (spread conn new) = assoc "id" conn.
Proof.
  intros Hnd H. apply strict_equal_eq in H.
  rewrite assoc_spread by assumption. rewrite <- H.
  destruct (assoc "id" conn); reflexivity.
Qed.

(** X10. An UPDATE event keeps the cached list in place: same length,
    same ids in the same order; an entry whose id is the payload's takes
    every property the payload has and keeps its other properties, the
    other entries are left as they are. *)
Theorem update_event_merges_by_id (new : js_object) (prev : list js_object) :
  distinct_keys new ->
  Forall2
    (fun conn conn' =>
       assoc "id" conn' = assoc "id" conn
       /\ if strict_equal (assoc "id" conn) (assoc "id" new)
          then forall k, assoc k conn'
                         = match assoc k new with
                           | Some v => Some v
                           | None => assoc k conn
                           end
          else conn' = conn)
    prev (on_change (UPDATE new) prev).
Proof.
  intros Hnd. cbn [on_change]. apply Forall2_map_self. intros conn _.
  destruct (strict_equal (assoc "id" conn) (assoc "id" new)) eqn:E.
  - split; [apply updated_id; assumption|].
    intros k. apply assoc_spread. assumption.
  - split; reflexivity.
Qed.

(** X11. An INSERT event followed by the DELETE event of the same row
    gives back the cached list, when the row's id is a string, number,
    boolean or null that no cached entry carries. *)
Theorem insert_then_delete_restores (row : js_object) (prev : list js_object) :
  strict_equal (assoc "id" row) (assoc "id" row) = true ->
  (forall conn, In conn prev ->
                strict_equal (assoc "id" conn) (assoc "id" row) = false) ->
  on_change (DELETE row) (on_change (INSERT row) prev) = prev.
Proof.
  intros Hself Hfresh. cbn [on_change filter]. rewrite Hself. cbn [negb].
  apply ConnectionOpsFacts.filter_all. intros conn Hin. rewrite (Hfresh conn Hin). reflexivity.
Qed.

(** X12. UPDATE and DELETE events can be delivered twice without harm:
    the second delivery changes nothing. *)
Theorem update_and_delete_are_idempotent (row : js_object) (prev : list js_object) :
  distinct_keys row ->
  on_change (UPDATE row) (on_change (UPDATE row) prev) = on_change (UPDATE row) prev
  /\ on_change (DELETE row) (on_change (DELETE row) prev) = on_change (DELETE row) prev.
Proof.
  intros Hnd. cbn [on_change]. split.
  - rewrite map_map. apply map_ext. intros conn.
    destruct (strict_equal (assoc "id" conn) (assoc "id" row)) eqn:E.
    + rewrite (updated_id conn row Hnd E), E. apply spread_again. assumption.
    + rewrite E. reflexivity.
  - apply ConnectionOpsFacts.filter_all. intros conn Hin. apply filter_In in Hin. tauto.
Qed.

End UserConnectionsHookFacts.

(** ** Loading and marking notifications *)
Module NotificationOpsFacts.
Import Notifications NotificationsFacts.

(** X13. A successful load caches at most 50 notifications, all of them
    rows of the user, newest first (rows without a creation time ahead),
    clears the error and ends the loading state. *)
Theorem loaded_notifications_shape
  (rows : list Notification) (user : UUID) (st : hook_state) :
  let st' := loadNotifications rows user None st in
  (List.length (notifications st') <= 50)%nat
  /\ (forall n, In n (notifications st') -> In n rows /\ user_id n = user)
  /\ StronglySorted newer_first (notifications st')
  /\ error st' = None
  /\ loading st' = false.
Proof.
  cbv zeta. unfold loadNotifications.
  cbn [notifications error loading unreadCount].
  unfold select_notifications. split; [apply firstn_le_length|].
  split; [|split; [|split; reflexivity]].
  - intros n Hn. apply in_firstn in Hn. apply (proj1 (in_ordered _ _)) in Hn.
    apply filter_In in Hn. destruct Hn as [Hin Hu].
    apply N.eqb_eq in Hu. auto.
  - apply firstn_sorted. apply ordered_sorted.
Qed.

(** X14. When the user has at most 50 notifications stored, a successful
    load caches every one of them and the counter is the number of the
    user's unread notifications in the store. *)
Theorem counter_is_exact_within_limit
  (rows : list Notification) (user : UUID) (st : hook_state) :
  (List.length (filter (fun n => N.eqb (user_id n) user) rows) <= 50)%nat ->
  let st' := loadNotifications rows user None st in
  unreadCount st' = count_unread rows user
  /\ forall n, In n rows -> user_id n = user -> In n (notifications st').
Proof.
  intros Hlen. cbv zeta. unfold loadNotifications.
  cbn [notifications error loading unreadCount].
  unfold select_notifications.
  rewrite firstn_all2 by (rewrite length_ordered; exact Hlen).
  split.
  - unfold count_unread. rewrite count_ordered, filter_filter_length. reflexivity.
  - intros n Hin Hu. apply in_ordered. apply filter_In. split; [assumption|].
    apply N.eqb_eq. assumption.
Qed.

Lemma count_unread_map_le (g : Notification -> Notification)
  (rows : list Notification) (v : UUID) :
  (forall n, user_id (g n) = user_id n) ->
  (forall n, is_unread (g n) = true -> is_unread n = true) ->
  count_unread (map g rows) v <= count_unread rows v.
Proof.
  intros Hu Hr. unfold count_unread. apply inj_le.
  induction rows as [|n rows IH]; [apply le_n|].
  cbn [map filter]. rewrite Hu.
  destruct (N.eqb (user_id n) v); cbn [andb]; [|exact IH].
  destruct (is_unread (g n)) eqn:E.
  - rewrite (Hr n E). cbn [List.length]. lia.
  - destruct (is_unread n); cbn [List.length]; lia.
Qed.

Lemma count_unread_map_eq (g : Notification -> Notification)
  (rows : list Notification) (v : UUID) :
  (forall n, user_id (g n) = user_id n) ->
  (forall n, user_id n = v -> g n = n) ->
  count_unread (map g rows) v = count_unread rows v.
Proof.
  intros Hu Hv. unfold count_unread. f_equal.
  induction rows as [|n rows IH]; [reflexivity|].
  cbn [map filter]. rewrite Hu.
  destruct (N.eqb (user_id n) v) eqn:E; cbn [andb]; [|exact IH].
  apply N.eqb_eq in E. rewrite (Hv n E).
  destruct (is_unread n); cbn [List.length]; rewrite IH; reflexivity.
Qed.

Lemma may_update_other (u v : UUID) (n : Notification) :
  v <> u -> user_id n = v -> may_update (Some u) n = false.
Proof.
  intros Hne Hn. cbn. apply N.eqb_neq. rewrite Hn. assumption.
Qed.

(** X15. A successful [markAllAsRead] leaves the user no unread
    notification in the store and touches no other owner's rows; in the
    cache every entry is read and the counter is 0; doing it again changes
    nothing. *)
Theorem markAllAsRead_clears_owner_only (u : UUID) (w : world) :
  let w' := markAllAsRead (Some u) None w in
  count_unread (table w') u = 0
  /\ (forall n, In n (table w) -> user_id n <> u -> In n (table w'))
  /\ (forall v, v <> u -> count_unread (table w') v = count_unread (table w) v)
  /\ Forall (fun n => status n = "read") (notifications (hook w'))
  /\ unreadCount (hook w') = 0
  /\ markAllAsRead (Some u) None w' = w'.
Proof.
  cbv zeta.
  cbn [markAllAsRead table hook notifications unreadCount loading error].
  split; [|split; [|split; [|split; [|split]]]].
  - unfold count_unread, update_all_read.
    induction (table w) as [|n rows IH]; [reflexivity|].
    cbn [map filter]. cbn [may_update].
    destruct (N.eqb (user_id n) u) eqn:E; cbn [andb].
    + destruct (is_unread n) eqn:Er.
      * cbn [with_status user_id]. rewrite E. cbn [andb].
        rewrite with_status_read_not_unread. exact IH.
      * rewrite E, Er. exact IH.
    + rewrite E. exact IH.
  - intros n Hin Hu. unfold update_all_read. apply in_map_iff. exists n.
    split; [|assumption].
    rewrite (may_update_other u (user_id n) n Hu eq_refl). reflexivity.
  - intros v Hv. unfold update_all_read. apply count_unread_map_eq.
    + intros n. destruct (may_update (Some u) n && is_unread n); reflexivity.
    + intros n Hn. rewrite (may_update_other u v n Hv Hn). reflexivity.
  - apply Forall_forall. intros n Hn. apply in_map_iff in Hn.
    destruct Hn as [m [<- _]]. reflexivity.
  - reflexivity.
  - f_equal.
    + unfold update_all_read. rewrite map_map. apply map_ext. intros n.
      destruct (may_update (Some u) n && is_unread n) eqn:E.
      * rewrite with_status_read_not_unread, andb_false_r. reflexivity.
      * rewrite E. reflexivity.
    + f_equal. rewrite map_map. apply map_ext. intros n. reflexivity.
Qed.

(** X16. In the store a successful [markAsRead] leaves every row of
    another owner and every row with another id as it was, and raises no
    owner's number of unread notifications. *)
Theorem markAsRead_store_effect (u : UUID) (notificationId : UUID) (w : world) :
  let w' := markAsRead (Some u) notificationId None w in
  (forall n, In n (table w) -> user_id n <> u \/ id n <> notificationId ->
             In n (table w'))
  /\ (forall v, count_unread (table w') v <= count_unread (table w) v)
  /\ (forall v, v <> u -> count_unread (table w') v = count_unread (table w) v).
Proof.
  cbv zeta. cbn [markAsRead table]. unfold update_read_by_id. split; [|split].
  - intros n Hin Hother. apply in_map_iff. exists n. split; [|assumption].
    destruct Hother as [Hu | Hid].
    + rewrite (may_update_other u (user_id n) n Hu eq_refl). reflexivity.
    + apply N.eqb_neq in Hid. rewrite Hid, andb_false_r. reflexivity.
  - intros v. apply count_unread_map_le.
    + intros n. destruct (may_update (Some u) n && N.eqb (id n) notificationId);
        reflexivity.
    + intros n. destruct (may_update (Some u) n && N.eqb (id n) notificationId);
        [rewrite with_status_read_not_unread; discriminate | auto].
  - intros v Hv. apply count_unread_map_eq.
    + intros n. destruct (may_update (Some u) n && N.eqb (id n) notificationId);
        reflexivity.
    + intros n Hn. rewrite (may_update_other u v n Hv Hn). reflexivity.
Qed.

End NotificationOpsFacts.

(** ** More on the edge function's answers *)
Module McpAgentMoreFacts.
Import McpAgent LifecycleFacts.

Lemma respond_status (corsHeaders : list (string * string))
  (Number : string -> js_number) (req : request) (r : response) :
  respond corsHeaders Number req = Normal r ->
  status r = 200 /\ headers r = json_headers corsHeaders.
Proof.
  unfold respond.
  destruct (greater_than (contentLength Number req) maxRequestSize); [discriminate|].
  destruct (json_body req) as [parsed|m]; cbn [and_then]; [|discriminate].
  destruct (destructure_type parsed) as [type|m]; cbn [and_then]; [|discriminate].
  destruct type as [t|]; [|discriminate].
  destruct (falsy (Some t)); [discriminate|].
  destruct (ToString t) as [key|m]; cbn [and_then]; [|discriminate].
  destruct (negb (has_property key)); [discriminate|].
  intros H. injection H as <-. split; reflexivity.
Qed.

(** X17. Whatever the request, the status is 200 or 400; a 400 answer is
    the envelope [{success: false, error}] and nothing else; and every
    answer to a request other than a pre-flight is declared as JSON. *)
Theorem handler_answers (corsHeaders : list (string * string))
  (Number : string -> js_number) (req : request) :
  let r := handler corsHeaders Number req in
  (status r = 200 \/ status r = 400)
  /\ (status r = 400 ->
      exists message,
        payload r = JsonText (JObject [("success", JBool false);
                                       ("error", JString message)]))
  /\ (method req <> "OPTIONS" ->
      assoc "Content-Type" (headers r) = Some "application/json").
Proof.
  cbv zeta. unfold handler.
  destruct (String.eqb (method req) "OPTIONS") eqn:Em.
  - cbn [status payload headers]. split; [left; reflexivity|].
    split; [discriminate|]. intros H. apply String.eqb_eq in Em. contradiction.
  - destruct (respond corsHeaders Number req) as [r|m] eqn:Er.
    + destruct (respond_status corsHeaders Number req r Er) as [Hs Hh].
      split; [left; assumption|]. split.
      * rewrite Hs. discriminate.
      * intros _. rewrite Hh. apply assoc_set_same.
    + cbn [status payload headers]. split; [right; reflexivity|]. split.
      * intros _. exists m. reflexivity.
      * intros _. apply assoc_set_same.
Qed.

(** X18. A request other than a pre-flight, within the size limit, whose
    body is an object with [type] one of the three request types is
    answered 200 with the mock answer of that type, a success envelope,
    whatever else the body carries. *)
Theorem known_tag_is_served (corsHeaders : list (string * string))
  (Number : string -> js_number) (req : request)
  (fields : list (string * json)) (tag : string) (answer : json) :
  method req <> "OPTIONS" ->
  greater_than (contentLength Number req) maxRequestSize = false ->
  json_body req = Normal (JObject fields) ->
  assoc "type" fields = Some (JString tag) ->
  assoc tag mockResponses = Some answer ->
  handler corsHeaders Number req
  = {| status := 200; headers := json_headers corsHeaders;
       payload := JsonText answer |}
  /\ exists payload_data,
       answer = JObject [("success", JBool true); ("data", payload_data)].
Proof.
  intros Hm Hsize Hbody Htype Hmock.
  unfold handler. apply String.eqb_neq in Hm. rewrite Hm.
  unfold respond. rewrite Hsize, Hbody. cbn [and_then destructure_type].
  rewrite Htype. cbn [and_then].
  assert (Hne : String.eqb tag EmptyString = false).
  { destruct tag; [discriminate Hmock | reflexivity]. }
  cbn [falsy]. rewrite Hne. cbn [ToString and_then].
  unfold has_property, get_property. rewrite Hmock. cbn [negb stringify].
  split; [reflexivity|].
  cbn [assoc mockResponses] in Hmock.
  repeat match type of Hmock with
         | (if ?c then _ else _) = _ => destruct c
         end;
    try discriminate; injection Hmock as <-; eexists; reflexivity.
Qed.

(** X19. A tag wrapped in a one-element array is answered exactly as the
    tag itself: the property key is the array's string form. *)
Theorem array_tag_is_coerced (corsHeaders : list (string * string))
  (Number : string -> js_number) (req1 req2 : request)
  (fields1 fields2 : list (string * json)) (tag : string) :
  method req1 = method req2 ->
  content_length req1 = content_length req2 ->
  json_body req1 = Normal (JObject fields1) ->
  json_body req2 = Normal (JObject fields2) ->
  assoc "type" fields1 = Some (JString tag) ->
  assoc "type" fields2 = Some (JArray [JString tag]) ->
  handler corsHeaders Number req1 = handler corsHeaders Number req2.
Proof.
  intros Hm Hl Hb1 Hb2 Ht1 Ht2. unfold handler. rewrite Hm.
  destruct (String.eqb (method req2) "OPTIONS"); [reflexivity|].
  assert (Hr : respond corsHeaders Number req1 = respond corsHeaders Number req2).
  { unfold respond, contentLength. rewrite Hl, Hb1, Hb2.
    destruct (greater_than _ maxRequestSize); [reflexivity|].
    cbn [and_then destructure_type]. rewrite Ht1, Ht2.
    cbn [and_then falsy ToString].
    destruct (String.eqb tag EmptyString) eqn:E; [|reflexivity].
    apply String.eqb_eq in E. subst tag. reflexivity. }
  rewrite Hr. reflexivity.
Qed.

End McpAgentMoreFacts.

(** ** Retention and the unread count of the first schema *)
Module NotificationLogFacts.
Import NotificationLog.

Lemma kept_rows (rows : list notification) (cutoff : timestamptz) :
  let kept := filter (fun n => negb (created_at n <? cutoff)) rows in
  (forall n, In n kept <-> In n rows /\ cutoff <= created_at n)
  /\ (forall u, count_unread_notifications kept u <= count_unread_notifications rows u)
  /\ (forall u,
         (forall n, In n rows -> user_id n = u -> cutoff <= created_at n) ->
         count_unread_notifications kept u = count_unread_notifications rows u).
Proof.
  cbv zeta. unfold count_unread_notifications. split; [|split].
  - intros n. rewrite filter_In, negb_true_iff, Z.ltb_ge. reflexivity.
  - intros u. apply inj_le.
    induction rows as [|n rows IH]; [apply le_n|].
    cbn [filter].
    destruct (negb (created_at n <? cutoff)); cbn [filter];
      destruct (N.eqb (user_id n) u && is_false (read n) && is_false (dismissed n));
      cbn [List.length]; lia.
  - intros u Hrecent. f_equal.
    induction rows as [|n rows IH]; [reflexivity|].
    assert (IH' : List.length
                    (filter (fun n0 => N.eqb (user_id n0) u && is_false (read n0)
                                       && is_false (dismissed n0))
                       (filter (fun n0 => negb (created_at n0 <? cutoff)) rows))
                  = List.length
                      (filter (fun n0 => N.eqb (user_id n0) u && is_false (read n0)
                                         && is_false (dismissed n0)) rows)).
    { apply IH. intros m Hm. apply Hrecent. right. assumption. }
    cbn [filter].
    destruct (N.eqb (user_id n) u) eqn:Eu.
    + apply N.eqb_eq in Eu.
      pose proof (Hrecent n (or_introl eq_refl) Eu) as Hc.
      apply Z.ltb_ge in Hc. rewrite Hc. cbn [negb filter].
      apply N.eqb_eq in Eu. rewrite Eu.
      destruct (true && is_false (read n) && is_false (dismissed n));
        cbn [List.length]; rewrite IH'; reflexivity.
    + cbn [andb].
      destruct (negb (created_at n <? cutoff)); cbn [filter];
        [rewrite Eu; cbn [andb]|]; exact IH'.
Qed.

(** X20. With a null number of days nothing is deleted; when the
    cut-off cannot be represented the call raises and deletes nothing.
    Otherwise it keeps exactly the rows created at or after the cut-off, never raises a user's unread count, and leaves the
    count of a user whose rows are all that recent as it was. *)
Theorem retention_keeps_recent_rows
  (minus_days : timestamptz -> Z -> option timestamptz)
  (rows : list notification) (now : timestamptz) (p_days : Z) :
  delete_old_notifications minus_days rows now None = Deleted rows
  /\ (minus_days now p_days = None ->
      delete_old_notifications minus_days rows now (Some p_days)
      = TimestampOutOfRange)
  /\ (forall cutoff,
         minus_days now p_days = Some cutoff ->
         exists kept,
           delete_old_notifications minus_days rows now (Some p_days)
           = Deleted kept
           /\ (forall n, In n kept <-> In n rows /\ cutoff <= created_at n)
           /\ (forall u, count_unread_notifications kept u
                         <= count_unread_notifications rows u)
           /\ (forall u,
                  (forall n, In n rows -> user_id n = u -> cutoff <= created_at n) ->
                  count_unread_notifications kept u
                  = count_unread_notifications rows u)).
Proof.
  unfold delete_old_notifications. split; [reflexivity|split].
  - intros H. rewrite H. reflexivity.
  - intros cutoff H. rewrite H. eexists. split; [reflexivity|].
    apply kept_rows.
Qed.

(** In a UTC session, thirty days of retention drop the older of two rows
    and keep the newer; a retention of 2147483647 days raises. *)
Example retention_in_utc :
  let rows := [demo_notification 1%N 0; demo_notification 2%N 5000000000000] in
  delete_old_notifications utc_minus_days rows 6000000000000 (Some 30)
  = Deleted [demo_notification 2%N 5000000000000]
  /\ delete_old_notifications utc_minus_days rows 6000000000000
       (Some 2147483647)
     = TimestampOutOfRange.
Proof. split; reflexivity. Qed.

End NotificationLogFacts.

(** ** The chat client *)
Module ChatFacts.
Import Chat.

(** X21. A blank message changes nothing.  For any other message,
    either the service reports success without data and the render fails
    with nothing appended for the assistant, or exactly two entries are
    added to the conversation, the message itself and one entry of the
    assistant, and the loading state ends.  Which of the two happens, and
    the assistant's entry, are the same for every message, since only the
    request type is sent. *)
Theorem chat_appends_message_and_one_reply
  (invoke : string -> json -> invoke_outcome) (trim : string -> string) :
  exists reply : option chat_message,
    (reply = None <->
     exists d, invoke "mcp-agent" (JObject [("type", JString "chat")])
               = Resolved d None
               /\ (d = None \/ d = Some JNull))
    /\ (forall r, reply = Some r -> type r = assistant)
    /\ forall st message,
         (trim message = EmptyString ->
          handleSendMessage invoke trim st message = Fulfilled st)
         /\ (trim message <> EmptyString ->
             handleSendMessage invoke trim st message
             = match reply with
               | Some r =>
                   Fulfilled
                     {| messages :=
                          (messages st
                           ++ [{| type := user;
                                  content := Some (JString message) |};
                               r])%list;
                        isLoading := false |}
               | None => Failed
               end).
Proof.
  set (call := invoke "mcp-agent" (JObject [("type", JString "chat")])).
  assert (Hreq : request invoke "chat"
                 = match call with
                   | Resolved d None =>
                       Fulfilled {| success := true; error := None; data := d |}
                   | Resolved _ (Some e) =>
                       Fulfilled {| success := false; error := message_of e;
                                    data := None |}
                   | Rejected (Truthy e) =>
                       Fulfilled {| success := false; error := message_of e;
                                    data := None |}
                   | Rejected Nullish => Failed
                   end) by reflexivity.
  exists (match request invoke "chat" with
          | Fulfilled response =>
              if success response then
                match data_message (data response) with
                | Fulfilled c => Some {| type := assistant; content := c |}
                | Failed => None
                end
              else Some apology_entry
          | Failed => Some apology_entry
          end).
  split; [|split].
  - rewrite Hreq. destruct call as [d [e|] | [e|]]; cbn [success data].
    + split; [discriminate | intros [d' [H _]]; discriminate].
    + destruct d as [[| b | n | s | items | fields]|]; cbn [data_message];
        split; intros H;
        first [ discriminate H
              | reflexivity
              | eexists; split; [reflexivity | auto; fail]
              | destruct H as [d' [H [-> | ->]]]; discriminate H ].
    + split; [discriminate | intros [d' [H _]]; discriminate].
    + split; [discriminate | intros [d' [H _]]; discriminate].
  - intros r. destruct (request invoke "chat") as [response|].
    + destruct (success response).
      * destruct (data_message (data response)); [|discriminate].
        intros H. injection H as <-. reflexivity.
      * intros H. injection H as <-. reflexivity.
    + intros H. injection H as <-. reflexivity.
  - intros st message. unfold handleSendMessage, sendMessage. split.
    + intros H. rewrite H. reflexivity.
    + intros H. apply String.eqb_neq in H. rewrite H.
      destruct (request invoke "chat") as [response|].
      * destruct (success response).
        -- unfold append_reply. destruct (data_message (data response));
             [rewrite <- app_assoc|]; reflexivity.
        -- rewrite <- app_assoc. reflexivity.
      * rewrite <- app_assoc. reflexivity.
Qed.

End ChatFacts.

(** ** The theorems above on concrete data *)
Module Examples.
Import Bytea Connections ConnectionsFacts ConnectionOps ConnectionOpsFacts.

Lemma demo_db_created :
  create_user_connection demo_encrypt demo_timestamptz_out "postgres"
    demo_empty 1000 1%N 5%N 7%N "tinkoff" "t-secret" = Ok (1%N, demo_db).
Proof. reflexivity. Qed.

Lemma demo_db_keys_hold : keys_hold demo_db.
Proof.
  split; [|split].
  - repeat constructor. intros [].
  - repeat constructor. intros [].
  - intros row [<- | []]. left. reflexivity.
Qed.

Lemma get_broker_token_after_create_witness :
  get_broker_token demo_decrypt demo_db 1%N = Ok (Some "t-secret").
Proof.
  apply (get_broker_token_after_create demo_encrypt demo_decrypt
           demo_timestamptz_out "postgres" demo_roundtrip
           demo_empty demo_db 1000 1%N 5%N 7%N "tinkoff" "t-secret").
  exact demo_db_created.
Defined.

Lemma get_broker_token_as_owner_witness :
  get_broker_token demo_decrypt demo_db (id demo_row)
  = (v_token <- decrypt_token demo_decrypt demo_db
                  (encrypted_token demo_row) (user_id demo_row) ;;
     Ok (Some v_token)).
Proof.
  apply (get_broker_token_as_owner demo_decrypt demo_db demo_row).
  - repeat constructor. intros [].
  - left. reflexivity.
Defined.

Lemma unknown_connection_id_witness :
  get_broker_token demo_decrypt demo_db 99%N = Ok None
  /\ update_user_connection_token demo_encrypt demo_timestamptz_out
       demo_db 5000 11%N 99%N "t-new" = Err ConnectionNotFound.
Proof.
  apply (unknown_connection_id demo_encrypt demo_decrypt demo_timestamptz_out
           demo_db 99%N 5000 11%N "t-new").
  - exists "k3y". reflexivity.
  - intros r [<- | []]. discriminate.
Defined.

Lemma keys_hold_preserved_witness :
  keys_hold (deleteConnection demo_db (Some 7%N) 1%N).
Proof.
  apply (keys_hold_preserved demo_encrypt demo_timestamptz_out "postgres"
           demo_db demo_db_keys_hold).
Defined.

Lemma created_connection_is_due_witness :
  exists row, In row (get_active_connections demo_db 123456)
              /\ id row = 1%N /\ user_id row = 7%N /\ broker_type row = "tinkoff".
Proof.
  apply (created_connection_is_due demo_encrypt demo_timestamptz_out "postgres"
           demo_empty demo_db 1000 1%N 5%N 7%N "tinkoff" "t-secret"
           demo_db_created 123456).
Defined.

Lemma update_keeps_due_set_witness :
  exists db',
    update_user_connection_token demo_encrypt demo_timestamptz_out
      demo_db 5000 11%N 1%N "t-new" = Ok db'
    /\ map id (get_active_connections db' 9000)
       = map id (get_active_connections demo_db 9000).
Proof.
  destruct (update_user_connection_token demo_encrypt demo_timestamptz_out
              demo_db 5000 11%N 1%N "t-new") as [db'|e] eqn:E.
  - exists db'. split; [reflexivity|].
    apply (update_keeps_due_set demo_encrypt demo_timestamptz_out
             demo_db db' 5000 11%N 1%N "t-new" E).
  - discriminate E.
Defined.

Lemma foreign_connection_is_untouched_witness :
  toggleConnectionStatus demo_db (Some 8%N) 1%N false = demo_db
  /\ deleteConnection demo_db (Some 8%N) 1%N = demo_db.
Proof.
  apply (foreign_connection_is_untouched demo_db (Some 8%N) 1%N false).
  intros r [<- | []] _. reflexivity.
Defined.

Lemma deactivated_connection_is_never_due_witness :
  ~ In (set_is_active demo_row false)
       (get_active_connections (toggleConnectionStatus demo_db (Some 7%N) 1%N false) 9000).
Proof.
  intros H.
  apply (deactivated_connection_is_never_due demo_db 7%N 1%N 9000
           (set_is_active demo_row false)) in H.
  - destruct H as [_ H]. apply H. reflexivity.
  - intros x [<- | []] _. reflexivity.
Defined.

Lemma deleted_connection_is_gone_witness :
  get_broker_token demo_decrypt (deleteConnection demo_db (Some 7%N) 1%N) 1%N
  = Ok None
  /\ exists db'',
       create_user_connection demo_encrypt demo_timestamptz_out "postgres"
         (deleteConnection demo_db (Some 7%N) 1%N) 6000 2%N 3%N 7%N "tinkoff"
         "t-again" = Ok (2%N, db'').
Proof.
  destruct (deleted_connection_is_gone demo_encrypt demo_decrypt
              demo_timestamptz_out "postgres" demo_db demo_row 6000 2%N 3%N
              "t-again") as [_ [Hgone Hagain]].
  - exact demo_db_keys_hold.
  - exists "k3y". reflexivity.
  - left. reflexivity.
  - split; [exact Hgone|]. apply Hagain.
    + exists "k3y". split; [reflexivity | discriminate].
    + intros r Hr. vm_compute in Hr. destruct Hr.
Defined.

Lemma missing_key_stops_the_vault_witness :
  get_broker_token demo_decrypt (mk_database [7%N] [demo_row] []) 1%N
  = Err (undefined_object encryption_key).
Proof.
  apply (missing_key_stops_the_vault demo_encrypt demo_decrypt
           demo_timestamptz_out "postgres" (mk_database [7%N] [demo_row] [])).
  reflexivity.
Defined.

Import UserConnectionsHook UserConnectionsHookFacts.

Lemma update_event_merges_by_id_witness :
  Forall2
    (fun conn conn' =>
       assoc "id" conn' = assoc "id" conn
       /\ if strict_equal (assoc "id" conn) (assoc "id" (demo_connection "c1" false))
          then forall k, assoc k conn'
                         = match assoc k (demo_connection "c1" false) with
                           | Some v => Some v
                           | None => assoc k conn
                           end
          else conn' = conn)
    [demo_connection "c1" true; demo_connection "c2" true]
    (on_change (UPDATE (demo_connection "c1" false))
       [demo_connection "c1" true; demo_connection "c2" true]).
Proof.
  apply (update_event_merges_by_id (demo_connection "c1" false)
           [demo_connection "c1" true; demo_connection "c2" true]).
  unfold distinct_keys. cbn. repeat constructor; cbn; intuition discriminate.
Defined.

Lemma insert_then_delete_restores_witness :
  on_change (DELETE (demo_connection "c3" true))
    (on_change (INSERT (demo_connection "c3" true))
       [demo_connection "c1" true; demo_connection "c2" true])
  = [demo_connection "c1" true; demo_connection "c2" true].
Proof.
  apply (insert_then_delete_restores (demo_connection "c3" true)
           [demo_connection "c1" true; demo_connection "c2" true]).
  - reflexivity.
  - intros conn [<- | [<- | []]]; reflexivity.
Defined.

Lemma update_and_delete_are_idempotent_witness :
  on_change (UPDATE (demo_connection "c1" false))
    (on_change (UPDATE (demo_connection "c1" false)) [demo_connection "c1" true])
  = on_change (UPDATE (demo_connection "c1" false)) [demo_connection "c1" true].
Proof.
  apply (update_and_delete_are_idempotent (demo_connection "c1" false)
           [demo_connection "c1" true]).
  unfold distinct_keys. cbn. repeat constructor; cbn; intuition discriminate.
Defined.

Import Notifications NotificationOpsFacts.

Lemma counter_is_exact_within_limit_witness :
  unreadCount (loadNotifications (unread_batch 1%N 0 3) 1%N None initial_state)
  = count_unread (unread_batch 1%N 0 3) 1%N.
Proof.
  apply (counter_is_exact_within_limit (unread_batch 1%N 0 3) 1%N initial_state).
  cbn. lia.
Defined.

Import McpAgent McpAgentMoreFacts.

Lemma known_tag_is_served_witness :
  status (handler [] decimal_Number
            (post None (JObject [("type", JString "chat"); ("text", JString "hi")])))
  = 200.
Proof.
  destruct (known_tag_is_served [] decimal_Number
              (post None (JObject [("type", JString "chat"); ("text", JString "hi")]))
              [("type", JString "chat"); ("text", JString "hi")] "chat"
              (JObject
                 [("success", JBool true);
                  ("data",
                   JObject
                     [("message",
                       JString "Ваш портфель хорошо диверсифицирован, но есть возможности для оптимизации. Рекомендую рассмотреть увеличение доли облигаций для снижения рисков.")])]))
    as [H _].
  - discriminate.
  - reflexivity.
  - reflexivity.
  - reflexivity.
  - reflexivity.
  - rewrite H. reflexivity.
Defined.

Lemma array_tag_is_coerced_witness :
  handler [] decimal_Number (post None (JObject [("type", JString "analysis")]))
  = handler [] decimal_Number
      (post None (JObject [("type", JArray [JString "analysis"])])).
Proof.
  apply (array_tag_is_coerced [] decimal_Number
           (post None (JObject [("type", JString "analysis")]))
           (post None (JObject [("type", JArray [JString "analysis"])]))
           [("type", JString "analysis")]
           [("type", JArray [JString "analysis"])] "analysis");
    reflexivity.
Defined.

End Examples.
